(** * baidusync: the synchronisation engine, embedded and verified

    A shallow embedding of the three-way diff ([internal/sync/diff.go]),
    the transfer pipeline and reconciliation driver
    ([internal/sync/engine.go]), the stream cipher
    ([internal/crypto]), the snapshot store ([internal/database]) and the
    two file-system adapters ([internal/fs/local], [internal/fs/baidu]).

    Go's standard library ([time], [io], [os], [crypto/aes],
    [crypto/cipher], [encoding/json]) and [bbolt] are modelled by their
    documented behaviour; AES, MD5 and the JSON codec are parameters.
    Error texts are given in English. *)

From Stdlib Require Import ZArith Lia List String Ascii Bool.
From stdpp Require Import gmap strings list fin_maps pretty.

Set Warnings "-register-all".

Local Open Scope Z_scope.

(* ===================================================================== *)
(** ** Machine integers and Go's [time] package                          *)
(* ===================================================================== *)

Module Int64.
Definition min : Z := - 2 ^ 63.
Definition max : Z := 2 ^ 63 - 1.

Definition inRange (x : Z) : Prop := min <= x <= max.

(** Two's complement wrap-around of Go's [int64] arithmetic. *)
Definition wrap (x : Z) : Z := (x + 2 ^ 63) mod 2 ^ 64 - 2 ^ 63.

Definition add (x y : Z) : Z := wrap (x + y).
Definition neg (x : Z) : Z := wrap (- x).
End Int64.

Module time.
(** A [time.Time] without monotonic reading is an instant; it is kept
    here as its distance from the Unix epoch in nanoseconds.  A
    [time.Duration] is an [int64] count of nanoseconds. *)
Definition Time := Z.
Definition Duration := Z.

Definition Nanosecond : Duration := 1.
Definition Second : Duration := 1000000000.

Definition minDuration : Duration := Int64.min.
Definition maxDuration : Duration := Int64.max.

(** [time.Unix(sec, nsec)]. *)
Definition Unix (sec nsec : Z) : Time := sec * Second + nsec.

(** The zero [time.Time]: January 1, year 1, 00:00 UTC. *)
Definition zero : Time := Unix (-62135596800) 0.

Definition IsZero (t : Time) : bool := t =? zero.

(** [t.Sub(u)]: the difference, or the minimum (maximum) duration when
    the difference is below (above) what a [Duration] holds. *)
Definition Sub (t u : Time) : Duration :=
  let d := t - u in
  if d <? minDuration then minDuration
  else if maxDuration <? d then maxDuration
  else d.

(** [t.After(u)]. *)
Definition After (t u : Time) : bool := u <? t.

(** [t.Unix()]: whole seconds since the epoch. *)
Definition UnixSeconds (t : Time) : Z := t / Second.

(** [t.UnixNano()]: an [int64], wrapped when out of range. *)
Definition UnixNano (t : Time) : Z := Int64.wrap t.
End time.

(* ===================================================================== *)
(** ** Errors, fallible results and byte streams                         *)
(* ===================================================================== *)

(** Go [error] values, as far as the engine builds them. *)
Inductive error :=
| ErrNew (msg : string)                      (* errors.New, or a leaf from the OS / API *)
| ErrWrap (msg : string) (e : error)         (* fmt.Errorf("msg: %w", e) *)
| ErrList (msg : string) (es : list error).  (* fmt.Errorf("%d msg: %v", len(es), es) *)

(** A Go [(T, error)] pair with exactly one side set. *)
Inductive result (A : Type) :=
| Ok (a : A)
| Fail (e : error).
Arguments Ok {A} a.
Arguments Fail {A} e.

Definition isOk {A} (r : result A) : bool :=
  match r with Ok _ => true | Fail _ => false end.

Definition wrapErr {A} (msg : string) (r : result A) : result A :=
  match r with
  | Ok a => Ok a
  | Fail e => Fail (ErrWrap msg e)
  end.

(** [err.Error()]: the message text. *)
Fixpoint Error (e : error) : string :=
  match e with
  | ErrNew msg => msg
  | ErrWrap msg e' => msg ++ ": " ++ Error e'
  | ErrList msg es =>
      pretty (length es) ++ " " ++ msg ++ ": ["
        ++ String.concat " " (map Error es) ++ "]"
  end.

Module io.
(** An [io.Reader] drained to its end: the bytes it delivers, then
    either [io.EOF] ([rerr = None]) or a read error. *)
Record Reader := {
  data : list Z;
  rerr : option error
}.

(** [bytes.NewReader(b)] *)
Definition bytesReader (b : list Z) : Reader := {| data := b; rerr := None |}.

Definition EOF : error := ErrNew "EOF".
Definition ErrUnexpectedEOF : error := ErrNew "unexpected EOF".

(** [io.ReadFull(r, buf)] with [len(buf) = n]: the first [n] bytes and
    the reader advanced past them, or the reason fewer were read. *)
Definition ReadFull (r : Reader) (n : nat) : result (list Z * Reader) :=
  if (n <=? length (data r))%nat
  then Ok (firstn n (data r), {| data := skipn n (data r); rerr := rerr r |})
  else match rerr r with
       | Some e => Fail e
       | None =>
           match data r with
           | [] => Fail EOF
           | _ :: _ => Fail ErrUnexpectedEOF
           end
       end.

(** [io.MultiReader(bytes.NewReader(b), r)] *)
Definition MultiReader (b : list Z) (r : Reader) : Reader :=
  {| data := b ++ data r; rerr := rerr r |}.
End io.

(* ===================================================================== *)
(** ** The file-system port ([internal/fs/interface.go])                 *)
(* ===================================================================== *)

Module fs.
Record FileMeta := {
  RelPath : string;
  Size : Z;
  ModTime : time.Time;
  IsDir : bool;
  Hash : string;
  RemoteHash : string
}.

(** The [FileSystem] interface.  An implementation keeps its tree in a
    state of type [S]; a method that changes the tree returns the new
    state next to its Go result. *)
Record FileSystem (S : Type) := {
  Root : S -> string;
  ListAll : S -> result (gmap string FileMeta);
  OpenStream : string -> S -> result io.Reader;
  WriteStream : string -> io.Reader -> time.Time -> S -> result string * S;
  Delete : string -> S -> option error * S;
  Stat : string -> S -> result FileMeta;
  Rename : string -> string -> S -> option error * S
}.
Arguments Root {S}.
Arguments ListAll {S}.
Arguments OpenStream {S}.
Arguments WriteStream {S}.
Arguments Delete {S}.
Arguments Stat {S}.
Arguments Rename {S}.

End fs.

(* ===================================================================== *)
(** ** The snapshot store ([internal/database])                          *)
(* ===================================================================== *)

(** The embedded key/value store ([go.etcd.io/bbolt]) with its single
    bucket.  [Raw] is the type of stored values (serialised records). *)
Module bbolt.
Definition ErrDatabaseNotOpen : error := ErrNew "database not open".
Definition ErrKeyRequired : error := ErrNew "key required".
Definition ErrKeyTooLarge : error := ErrNew "key too large".
Definition MaxKeySize : Z := 32768.

Record DB (Raw : Type) := {
  opened : bool;
  bucket : gmap string Raw;
  (** a storage fault, when present, makes every commit fail *)
  commitFault : option error
}.
Arguments opened {Raw}.
Arguments bucket {Raw}.
Arguments commitFault {Raw}.

Section Tx.
Context {Raw : Type}.

(** [db.View(fn)]: a read-only transaction. *)
Definition View {A} (fn : gmap string Raw -> result A) (d : DB Raw)
    : result A :=
  if opened d then fn (bucket d) else Fail ErrDatabaseNotOpen.

(** [db.Update(fn)]: a read-write transaction, rolled back when [fn]
    or the commit fails. *)
Definition Update (fn : gmap string Raw -> result (gmap string Raw))
    (d : DB Raw) : option error * DB Raw :=
  if opened d then
    match fn (bucket d) with
    | Fail e => (Some e, d)
    | Ok b' =>
        match commitFault d with
        | Some e => (Some e, d)
        | None =>
            (None, {| opened := opened d; bucket := b';
                      commitFault := commitFault d |})
        end
    end
  else (Some ErrDatabaseNotOpen, d).

(** [b.Put(key, value)] *)
Definition Put (key : string) (value : Raw) (b : gmap string Raw)
    : result (gmap string Raw) :=
  if (String.length key =? 0)%nat then Fail ErrKeyRequired
  else if MaxKeySize <? Z.of_nat (String.length key) then Fail ErrKeyTooLarge
  else Ok (<[key := value]> b).

(** [b.Delete(key)]: a missing key is not an error. *)
Definition Delete (key : string) (b : gmap string Raw)
    : result (gmap string Raw) :=
  Ok (delete key b).
End Tx.
End bbolt.

Module database.
Record FileState := {
  RelPath : string;
  FileSize : Z;
  ModTime : Z;
  LocalHash : string;
  RemoteHash : string;
  IsDir : bool;
  LastSyncTime : Z
}.

Definition ModTimeAsTime (f : FileState) : time.Time :=
  time.Unix 0 (ModTime f).

Definition setLastSyncTime (t : Z) (f : FileState) : FileState :=
  {| RelPath := RelPath f; FileSize := FileSize f; ModTime := ModTime f;
     LocalHash := LocalHash f; RemoteHash := RemoteHash f;
     IsDir := IsDir f; LastSyncTime := t |}.

Section Store.
Context {Raw : Type}.
(** [encoding/json] on [FileState]. *)
Variable json_Marshal : FileState -> result Raw.
Variable json_Unmarshal : Raw -> result FileState.

Definition DB := bbolt.DB Raw.

Definition Get (relPath : string) (d : DB) : result (option FileState) :=
  let r :=
    bbolt.View (fun b =>
      match b !! relPath with
      | None => Fail (ErrNew "not found")
      | Some v => json_Unmarshal v
      end) d in
  match r with
  | Fail e =>
      if String.eqb (Error e) "not found" then Ok None else Fail e
  | Ok state => Ok (Some state)
  end.

(** [now] is the value of [time.Now()]. *)
Definition Put (now : time.Time) (state : FileState) (d : DB)
    : option error * DB :=
  let state := setLastSyncTime (time.UnixNano now) state in
  match json_Marshal state with
  | Fail e => (Some (ErrWrap "marshal failed" e), d)
  | Ok data => bbolt.Update (bbolt.Put (RelPath state) data) d
  end.

Definition Delete (relPath : string) (d : DB) : option error * DB :=
  bbolt.Update (bbolt.Delete relPath) d.

(** The callback of [b.ForEach] run over the pairs of the bucket. *)
Fixpoint forEach (kvs : list (string * Raw))
    (res : gmap string FileState) : result (gmap string FileState) :=
  match kvs with
  | [] => Ok res
  | (k, v) :: rest =>
      match json_Unmarshal v with
      | Fail e => Fail (ErrWrap ("parse failed key=" ++ k) e)
      | Ok state => forEach rest (<[k := state]> res)
      end
  end.

Definition ListAll (d : DB) : result (gmap string FileState) :=
  bbolt.View (fun b => forEach (map_to_list b) ∅) d.
End Store.
End database.

(* ===================================================================== *)
(** ** The stream cipher ([internal/crypto])                             *)
(* ===================================================================== *)

Module crypto.
Definition BlockSize : nat := 16.

Section Cipher.
(** The AES block permutation of [crypto/aes]: key and 16-byte block
    to 16-byte block. *)
Variable aesBlock : list Z -> list Z -> list Z.

(** [aes.NewCipher(key)] *)
Definition NewCipher (key : list Z) : result (list Z -> list Z) :=
  let k := length key in
  if ((k =? 16) || (k =? 24) || (k =? 32))%nat
  then Ok (aesBlock key)
  else Fail (ErrNew "crypto/aes: invalid key size").

(** The CTR counter is a big-endian number in a byte slice; the loop
    of [cipher.ctr] increments from the last byte, carrying. *)
Fixpoint incrLE (c : list Z) : list Z :=
  match c with
  | [] => []
  | b :: t =>
      let b' := (b + 1) mod 256 in
      if b' =? 0 then 0 :: incrLE t else b' :: t
  end.

Definition ctrIncr (c : list Z) : list Z := rev (incrLE (rev c)).

Fixpoint keystream (blk : list Z -> list Z) (ctr : list Z) (n : nat)
    : list Z :=
  match n with
  | O => []
  | S n' => blk ctr ++ keystream blk (ctrIncr ctr) n'
  end.

(** [cipher.NewCTR(block, iv).XORKeyStream(dst, src)] over a whole
    stream. *)
Definition XORKeyStream (blk : list Z -> list Z) (iv src : list Z)
    : list Z :=
  zip_with Z.lxor src
    (keystream blk iv ((length src + 15) / 16)%nat).

(** [&cipher.StreamReader{S: stream, R: src}] *)
Definition StreamReader (blk : list Z -> list Z) (iv : list Z)
    (src : io.Reader) : io.Reader :=
  {| io.data := XORKeyStream blk iv (io.data src);
     io.rerr := io.rerr src |}.

(** [rnd] is [crypto/rand.Reader]. *)
Definition NewEncryptReader (rnd : io.Reader) (src : io.Reader)
    (key : list Z) : result io.Reader :=
  match NewCipher key with
  | Fail e => Fail (ErrWrap "invalid key" e)
  | Ok block =>
      match io.ReadFull rnd BlockSize with
      | Fail e => Fail (ErrWrap "IV generation failed" e)
      | Ok (iv, _) =>
          Ok (io.MultiReader iv (StreamReader block iv src))
      end
  end.

Definition NewDecryptReader (src : io.Reader) (key : list Z)
    : result io.Reader :=
  match NewCipher key with
  | Fail e => Fail (ErrWrap "invalid key" e)
  | Ok block =>
      match io.ReadFull src BlockSize with
      | Fail e => Fail (ErrWrap "reading IV failed or file too short" e)
      | Ok (iv, rest) => Ok (StreamReader block iv rest)
      end
  end.
End Cipher.

(** The key sizes [aes.NewCipher] accepts. *)
Definition validKey (key : list Z) : Prop :=
  length key = 16%nat \/ length key = 24%nat \/ length key = 32%nat.

(** A stand-in block function used to run the cipher on examples: it
    mixes key and block bytewise and always yields 16 bytes. *)
Definition toyBlock (key blk : list Z) : list Z :=
  map (fun i => Z.lxor (nth i key 0) (Z.lxor (nth i blk 0) 90)) (seq 0 16).
End crypto.

(* ===================================================================== *)
(** ** Engine types ([internal/sync])                                    *)
(* ===================================================================== *)

Inductive OpType :=
| OpIgnore
| OpUpload
| OpDownload
| OpDeleteRemote
| OpDeleteLocal
| OpConflict.

Definition OpType_eqb (a b : OpType) : bool :=
  match a, b with
  | OpIgnore, OpIgnore | OpUpload, OpUpload | OpDownload, OpDownload
  | OpDeleteRemote, OpDeleteRemote | OpDeleteLocal, OpDeleteLocal
  | OpConflict, OpConflict => true
  | _, _ => false
  end.

Record Task := {
  Op : OpType;
  RelPath : string;
  Reason : string
}.

Inductive ConflictStrategy :=
| StrategyRenameLocal
| StrategyRenameRemote
| StrategyKeepNewest
| StrategyForceUpload
| StrategyForceDownload.


(** The scalar part of [EngineOptions]; the three handles ([LocalFS],
    [RemoteFS], [StateDB]) live in the world the engine runs on. *)
Record EngineOptions := {
  EncryptKey : list Z;
  EncryptFilenames : bool;
  MaxWorkers : Z;
  Strategy : ConflictStrategy
}.

Definition NewEngine (opts : EngineOptions) : EngineOptions :=
  if MaxWorkers opts <=? 0
  then {| EncryptKey := EncryptKey opts;
          EncryptFilenames := EncryptFilenames opts;
          MaxWorkers := 3;
          Strategy := Strategy opts |}
  else opts.

(* ===================================================================== *)
(** ** The diff decider ([internal/sync/diff.go])                        *)
(* ===================================================================== *)

Definition EncryptedOverhead : Z := 16.

Definition nonEmpty (s : string) : bool := negb (String.eqb s "").

(** [len(e.opts.EncryptKey) > 0] *)
Definition encrypted (e : EngineOptions) : bool :=
  (0 <? Z.of_nat (length (EncryptKey e))).

Definition isSameFileFuzzy (e : EngineOptions) (l r : fs.FileMeta) : bool :=
  let expectedRemoteSize := fs.Size l in
  let expectedRemoteSize :=
    if encrypted e then Int64.add expectedRemoteSize EncryptedOverhead
    else expectedRemoteSize in
  fs.Size r =? expectedRemoteSize.

Definition isLocalSameAsBase (l : fs.FileMeta) (b : database.FileState) : bool :=
  if nonEmpty (fs.Hash l) && nonEmpty (database.LocalHash b)
  then String.eqb (fs.Hash l) (database.LocalHash b)
  else if negb (fs.Size l =? database.FileSize b) then false
  else
    let baseTime := time.Unix 0 (database.ModTime b) in
    let diff := time.Sub (fs.ModTime l) baseTime in
    let diff := if diff <? 0 then Int64.neg diff else diff in
    diff <? 2 * time.Second.

Definition isRemoteSameAsBase (r : fs.FileMeta) (b : database.FileState)
    (enc : bool) : bool :=
  if nonEmpty (fs.RemoteHash r) && nonEmpty (database.RemoteHash b)
  then String.eqb (fs.RemoteHash r) (database.RemoteHash b)
  else
    let expectedSize := database.FileSize b in
    let expectedSize :=
      if enc then Int64.add expectedSize EncryptedOverhead else expectedSize in
    fs.Size r =? expectedSize.

Definition isDirOpt (m : option fs.FileMeta) : bool :=
  match m with
  | Some x => fs.IsDir x
  | None => false
  end.

Definition compare (e : EngineOptions) (relPath : string)
    (local remote : option fs.FileMeta) (base : option database.FileState)
    : OpType :=
  if isDirOpt local || isDirOpt remote then OpIgnore
  else
    match base with
    | None =>
        match local, remote with
        | Some _, None => OpUpload
        | None, Some _ => OpDownload
        | Some l, Some r =>
            if isSameFileFuzzy e l r then OpIgnore else OpConflict
        | None, None => OpIgnore
        end
    | Some b =>
        match local with
        | None =>
            match remote with
            | None => OpIgnore
            | Some r =>
                if isRemoteSameAsBase r b (encrypted e) then OpDeleteRemote
                else OpDownload
            end
        | Some l =>
            match remote with
            | None =>
                if isLocalSameAsBase l b then OpDeleteLocal else OpUpload
            | Some r =>
                let localChanged := negb (isLocalSameAsBase l b) in
                let remoteChanged :=
                  negb (isRemoteSameAsBase r b (encrypted e)) in
                if negb localChanged && negb remoteChanged then OpIgnore
                else if localChanged && negb remoteChanged then OpUpload
                else if negb localChanged && remoteChanged then OpDownload
                else OpConflict
            end
        end
    end.

(* ===================================================================== *)
(** ** Slash-separated paths                                             *)
(* ===================================================================== *)

Module path.
Definition slash : Ascii.ascii := "/"%char.

(** [isUnder dir p]: [p] lies strictly below directory [dir]. *)
Definition isUnder (dir p : string) : bool := String.prefix (dir ++ "/") p.

(** The proper ancestors of a relative path, outermost first:
    ["a/b/c"] has ["a"] and ["a/b"]. *)
Fixpoint parentsFrom (acc p : string) : list string :=
  match p with
  | EmptyString => []
  | String c rest =>
      if Ascii.eqb c slash
      then acc :: parentsFrom (acc ++ "/") rest
      else parentsFrom (acc ++ String c EmptyString) rest
  end.

Definition parents (p : string) : list string := parentsFrom "" p.

(** [strings.Split(p, "/")] *)
Fixpoint splitFrom (acc p : string) : list string :=
  match p with
  | EmptyString => [acc]
  | String c rest =>
      if Ascii.eqb c slash
      then acc :: splitFrom "" rest
      else splitFrom (acc ++ String c EmptyString) rest
  end.

Definition Split (p : string) : list string := splitFrom "" p.
End path.

(* ===================================================================== *)
(** ** The local-disk adapter ([internal/fs/local/adapter.go])           *)
(* ===================================================================== *)

Module local.
(** What the operating system keeps at a path. *)
Inductive Node :=
| File (content : list Z) (mtime : time.Time)
| Dir (size : Z) (mtime : time.Time).

(** The adapter together with the tree below its root, keyed by
    slash-separated relative path, and the clock that stamps new
    files. *)
Record Adapter := {
  rootDir : string;
  disk : gmap string Node;
  clock : time.Time
}.

Definition withDisk (a : Adapter) (d : gmap string Node) : Adapter :=
  {| rootDir := rootDir a; disk := d; clock := clock a |}.

Definition ENOENT : error := ErrNew "no such file or directory".
Definition EISDIR : error := ErrNew "is a directory".
Definition ENOTDIR : error := ErrNew "not a directory".
Definition EEXIST : error := ErrNew "file exists".
Definition EINVAL : error := ErrNew "invalid argument".

(** [os.MkdirAll] on the directory of a path: every missing ancestor
    becomes a directory; an ancestor that is a file is an error. *)
Fixpoint mkdirs (now : time.Time) (dirs : list string)
    (d : gmap string Node) : result (gmap string Node) :=
  match dirs with
  | [] => Ok d
  | a :: rest =>
      match d !! a with
      | Some (File _ _) => Fail ENOTDIR
      | Some (Dir _ _) => mkdirs now rest d
      | None => mkdirs now rest (<[a := Dir 4096 now]> d)
      end
  end.

Definition os_MkdirAllParent (now : time.Time) (p : string)
    (d : gmap string Node) : result (gmap string Node) :=
  mkdirs now (path.parents p) d.

(** [os.Create]: truncate or create a regular file. *)
Definition os_Create (now : time.Time) (p : string) (d : gmap string Node)
    : result (gmap string Node) :=
  if String.eqb p "" then Fail EISDIR
  else match d !! p with
       | Some (Dir _ _) => Fail EISDIR
       | _ => Ok (<[p := File [] now]> d)
       end.

Definition isRegular (n : option Node) : bool :=
  match n with
  | Some (File _ _) => true
  | _ => false
  end.

(** [os.RemoveAll]: a path that is there goes with everything below it
    (the empty path is the root itself).  For a path that is not there
    the first [Remove] fails: with [ENOENT], which [RemoveAll] takes for
    success, when its ancestors are directories or missing; with
    [ENOTDIR], which it returns, when an ancestor is a regular file. *)
Definition os_RemoveAll (p : string) (d : gmap string Node)
    : result (gmap string Node) :=
  if String.eqb p "" then Ok ∅
  else
    match d !! p with
    | Some _ =>
        Ok (filter (fun kv => negb (String.eqb kv.1 p || path.isUnder p kv.1) = true) d)
    | None =>
        if existsb (fun a => isRegular (d !! a)) (path.parents p)
        then Fail ENOTDIR
        else Ok d
    end.

Definition rekey (old new k : string) : string :=
  if String.eqb k old then new
  else if path.isUnder old k
       then new ++ String.substring (String.length old)
                     (String.length k - String.length old) k
       else k.

(** [os.Rename], called with the parent directory of [new] in place.
    Go looks at [new] first: onto an existing directory it refuses with
    [EEXIST] (with the error of [old] when [old] is missing).  Otherwise
    it is [rename(2)]: a file replaces a file; a directory does not
    replace a file, and does not move below itself. *)
Definition os_Rename (old new : string) (d : gmap string Node)
    : result (gmap string Node) :=
  match d !! new, d !! old with
  | _, None => Fail ENOENT
  | Some (Dir _ _), Some _ => Fail EEXIST
  | _, Some (File c m) => Ok (<[new := File c m]> (delete old d))
  | Some (File _ _), Some (Dir _ _) => Fail ENOTDIR
  | None, Some (Dir _ _) =>
      if path.isUnder old new then Fail EINVAL
      else Ok (list_to_map
                 (map (fun kv => (rekey old new kv.1, kv.2))
                      (map_to_list d)))
  end.

Section Methods.
(** [hex.EncodeToString(md5.Sum(content))] *)
Variable md5hex : list Z -> string.

Definition calculateMD5 (p : string) (d : gmap string Node)
    : result string :=
  match d !! p with
  | None => Fail ENOENT
  | Some (Dir _ _) => Fail EISDIR
  | Some (File c _) => Ok (md5hex c)
  end.

Definition metaOf (relPath : string) (n : Node) : fs.FileMeta :=
  match n with
  | File c m =>
      {| fs.RelPath := relPath; fs.Size := Z.of_nat (length c);
         fs.ModTime := m; fs.IsDir := false;
         fs.Hash := ""; fs.RemoteHash := "" |}
  | Dir sz m =>
      {| fs.RelPath := relPath; fs.Size := sz;
         fs.ModTime := m; fs.IsDir := true;
         fs.Hash := ""; fs.RemoteHash := "" |}
  end.

Definition Root (a : Adapter) : string := rootDir a.

(** [filepath.Walk] visits every entry below the root; no hash is
    computed during the scan. *)
Definition ListAll (a : Adapter) : result (gmap string fs.FileMeta) :=
  Ok (map_imap (fun k n => Some (metaOf k n)) (disk a)).

Definition OpenStream (relPath : string) (a : Adapter)
    : result io.Reader :=
  match disk a !! relPath with
  | None => Fail ENOENT
  | Some (File c _) => Ok (io.bytesReader c)
  | Some (Dir _ _) => Ok {| io.data := []; io.rerr := Some EISDIR |}
  end.

Definition WriteStream (relPath : string) (stream : io.Reader)
    (modTime : time.Time) (a : Adapter) : result string * Adapter :=
  match os_MkdirAllParent (clock a) relPath (disk a) with
  | Fail e => (Fail (ErrWrap "mkdir failed" e), a)
  | Ok d1 =>
      match os_Create (clock a) relPath d1 with
      | Fail e => (Fail (ErrWrap "create failed" e), withDisk a d1)
      | Ok d2 =>
          (* io.Copy(f, stream) *)
          let d3 := <[relPath := File (io.data stream) (clock a)]> d2 in
          match io.rerr stream with
          | Some e => (Fail (ErrWrap "write failed" e), withDisk a d3)
          | None =>
              (* os.Chtimes(fullPath, time.Now(), modTime) *)
              let d4 :=
                if negb (time.IsZero modTime)
                then <[relPath := File (io.data stream) modTime]> d3
                else d3 in
              (calculateMD5 relPath d4, withDisk a d4)
          end
      end
  end.

Definition Delete (relPath : string) (a : Adapter)
    : option error * Adapter :=
  match os_RemoveAll relPath (disk a) with
  | Fail e => (Some e, a)
  | Ok d' => (None, withDisk a d')
  end.

Definition Stat (relPath : string) (a : Adapter) : result fs.FileMeta :=
  match disk a !! relPath with
  | None => Fail ENOENT
  | Some (Dir sz m) => Ok (metaOf relPath (Dir sz m))
  | Some (File c m) =>
      match calculateMD5 relPath (disk a) with
      | Fail e => Fail (ErrWrap "stat md5 calc failed" e)
      | Ok md5Str =>
          Ok {| fs.RelPath := relPath; fs.Size := Z.of_nat (length c);
                fs.ModTime := m; fs.IsDir := false;
                fs.Hash := md5Str; fs.RemoteHash := "" |}
      end
  end.

Definition Rename (oldRelPath newRelPath : string) (a : Adapter)
    : option error * Adapter :=
  match os_MkdirAllParent (clock a) newRelPath (disk a) with
  | Fail e => (Some e, a)
  | Ok d1 =>
      match os_Rename oldRelPath newRelPath d1 with
      | Fail e => (Some e, withDisk a d1)
      | Ok d2 => (None, withDisk a d2)
      end
  end.

Definition isDirAt (relPath : string) (a : Adapter) : bool :=
  match disk a !! relPath with
  | Some (Dir _ _) => true
  | _ => false
  end.

Definition FS : fs.FileSystem Adapter :=
  {| fs.Root := Root;
     fs.ListAll := ListAll;
     fs.OpenStream := OpenStream;
     fs.WriteStream := WriteStream;
     fs.Delete := Delete;
     fs.Stat := Stat;
     fs.Rename := Rename |}.
End Methods.
End local.

(* ===================================================================== *)
(** ** The remote adapter ([internal/fs/baidu]): the delete path         *)
(* ===================================================================== *)

Module baidu.
Definition PCSBaseURL : string := "https://pan.baidu.com/rest/2.0/xpan/file".

Record PCSResponse := {
  ErrNo : Z;
  Msg : string
}.

Definition IsSuccess (r : PCSResponse) : bool := ErrNo r =? 0.

Record Adapter := {
  root : string;
  encryptKey : list Z;
  encryptFilenames : bool
}.

Section Client.
(** The remote store behind the HTTP API. *)
Variable Server : Type.
(** [c.request(method, url, params, body)]: one HTTP exchange, giving
    the response body or a transport error. *)
Variable request :
  string -> string -> list (string * string) -> list (string * string) ->
  Server -> result (list Z) * Server.
(** [json.Marshal] of a string slice, [json.Unmarshal] into a
    [PCSResponse]. *)
Variable json_MarshalStrings : list string -> result string.
Variable json_UnmarshalPCS : list Z -> result PCSResponse.
(** [path.Join] and [crypto.EncryptName]. *)
Variable path_Join : list string -> string.
Variable EncryptName : string -> list Z -> result string.

Definition Client_Delete (remotePath : string) (s : Server)
    : option error * Server :=
  let fileList := [remotePath] in
  match json_MarshalStrings fileList with
  | Fail e => (Some (ErrWrap "failed to marshal file list to JSON" e), s)
  | Ok fileListJSON =>
      let data := [("async", "2"); ("filelist", fileListJSON)] in
      let params := [("method", "filemanager"); ("opera", "delete")] in
      match request "POST" PCSBaseURL params data s with
      | (Fail e, s') => (Some e, s')
      | (Ok body, s') =>
          match json_UnmarshalPCS body with
          | Fail e => (Some (ErrWrap "failed to unmarshal response" e), s')
          | Ok resp =>
              if negb (IsSuccess resp)
              then (Some (ErrNew "delete operation failed"), s')
              else (None, s')
          end
      end
  end.

Definition toAbsPath (a : Adapter) (relPath : string) : string :=
  path_Join [root a; relPath].

Fixpoint encryptParts (a : Adapter) (plainRelPath : string)
    (parts : list string) : result (list string) :=
  match parts with
  | [] => Ok []
  | part :: rest =>
      match EncryptName part (encryptKey a) with
      | Fail e => Fail (ErrWrap ("encrypting part of " ++ plainRelPath) e)
      | Ok encrypted =>
          match encryptParts a plainRelPath rest with
          | Fail e => Fail e
          | Ok tl => Ok (encrypted :: tl)
          end
      end
  end.

Definition encryptPath (a : Adapter) (plainRelPath : string)
    : result string :=
  if String.eqb plainRelPath "" || String.eqb plainRelPath "."
  then Ok ""
  else
    match encryptParts a plainRelPath (path.Split plainRelPath) with
    | Fail e => Fail e
    | Ok encryptedParts => Ok (path_Join encryptedParts)
    end.

Definition toEncryptedAbsPath (a : Adapter) (plainRelPath : string)
    : result string :=
  if negb (encryptFilenames a) then Ok (toAbsPath a plainRelPath)
  else
    match encryptPath a plainRelPath with
    | Fail e => Fail e
    | Ok encryptedRel => Ok (path_Join [root a; encryptedRel])
    end.

Definition Delete (a : Adapter) (relPath : string) (s : Server)
    : option error * Server :=
  match toEncryptedAbsPath a relPath with
  | Fail e => (Some e, s)
  | Ok absPath => Client_Delete absPath s
  end.
End Client.
End baidu.

(* ===================================================================== *)
(** ** The engine ([internal/sync/engine.go])                            *)
(* ===================================================================== *)

Definition toResult (o : option error) : result unit :=
  match o with
  | None => Ok tt
  | Some err => Fail err
  end.

Definition toErr {A} (r : result A) : option error :=
  match r with
  | Ok _ => None
  | Fail err => Some err
  end.

(** A [context.Context] as the workers see it: [None] is never
    cancelled, [Some n] is found cancelled once [n] tasks have been
    taken from the queue. *)
Definition Context := option nat.

(** Task number [k] of the queue (from 0) is started before the context
    is found cancelled. *)
Definition ctxAllows (ctx : Context) (k : nat) : Prop :=
  match ctx with
  | None => True
  | Some n => (k < n)%nat
  end.

(** The three scans that open a cycle.  They run in goroutines of one
    error group; a [list Scan] gives the order in which they return
    (scans it leaves out return last: local, remote, snapshot). *)
Inductive Scan := ScanLocal | ScanRemote | ScanDB.

Section Engine.
Context {SL SR Raw : Type}.
Variable LocalFS : fs.FileSystem SL.
Variable RemoteFS : fs.FileSystem SR.
Variable json_Marshal : database.FileState -> result Raw.
Variable json_Unmarshal : Raw -> result database.FileState.
(** [crypto/aes], [crypto/rand.Reader] and [time.Now()]. *)
Variable aesBlock : list Z -> list Z -> list Z.
Variable rand_Reader : io.Reader.
Variable now : time.Time.
Variable e : EngineOptions.

(** What the three handles of [EngineOptions] point to. *)
Record World := {
  wLocal : SL;
  wRemote : SR;
  wDB : bbolt.DB Raw
}.

(** Engine steps: a Go result together with the world it leaves. A
    failing step keeps the changes made so far (nothing is rolled
    back). *)
Definition Act (A : Type) : Type := World -> result A * World.

Definition ret {A} (a : A) : Act A := fun w => (Ok a, w).

Definition bind {A B} (m : Act A) (k : A -> Act B) : Act B :=
  fun w =>
    match m w with
    | (Ok a, w') => k a w'
    | (Fail err, w') => (Fail err, w')
    end.

Definition lift {A} (r : result A) : Act A := fun w => (r, w).

Definition wrapAct {A} (msg : string) (m : Act A) : Act A :=
  fun w => let '(r, w') := m w in (wrapErr msg r, w').

Definition readLocal {A} (f : SL -> result A) : Act A :=
  fun w => (f (wLocal w), w).

Definition readRemote {A} (f : SR -> result A) : Act A :=
  fun w => (f (wRemote w), w).

Definition onLocal {A} (f : SL -> A * SL) : World -> A * World :=
  fun w =>
    let '(r, l') := f (wLocal w) in
    (r, {| wLocal := l'; wRemote := wRemote w; wDB := wDB w |}).

Definition onRemote {A} (f : SR -> A * SR) : World -> A * World :=
  fun w =>
    let '(r, r') := f (wRemote w) in
    (r, {| wLocal := wLocal w; wRemote := r'; wDB := wDB w |}).

Definition onDB {A} (f : bbolt.DB Raw -> A * bbolt.DB Raw)
    : World -> A * World :=
  fun w =>
    let '(r, d') := f (wDB w) in
    (r, {| wLocal := wLocal w; wRemote := wRemote w; wDB := d' |}).

(** A Go call returning only [error]. *)
Definition errAct (f : World -> option error * World) : Act unit :=
  fun w => let '(o, w') := f w in (toResult o, w').

Notation "'let*' x ':=' m 'in' k" := (bind m (fun x => k))
  (at level 10, x name, m at level 100, k at level 200).

Definition doUpload (path : string) : Act unit :=
  let* reader := readLocal (fs.OpenStream LocalFS path) in
  let* uploadStream :=
    lift (if encrypted e
          then wrapErr "crypto init failed"
                 (crypto.NewEncryptReader aesBlock rand_Reader reader
                    (EncryptKey e))
          else Ok reader) in
  let* cloudMD5 := onRemote (fs.WriteStream RemoteFS path uploadStream now) in
  let* stat :=
    wrapAct "stat local failed after upload"
      (readLocal (fs.Stat LocalFS path)) in
  let newState :=
    {| database.RelPath := path;
       database.FileSize := fs.Size stat;
       database.ModTime := time.UnixNano (fs.ModTime stat);
       database.LocalHash := fs.Hash stat;
       database.RemoteHash := cloudMD5;
       database.IsDir := false;
       database.LastSyncTime := time.UnixSeconds now |} in
  errAct (onDB (database.Put json_Marshal now newState)).

Definition doDownload (path : string) : Act unit :=
  let* reader := readRemote (fs.OpenStream RemoteFS path) in
  let* downStream :=
    lift (if encrypted e
          then wrapErr "crypto init failed"
                 (crypto.NewDecryptReader aesBlock reader (EncryptKey e))
          else Ok reader) in
  let* remoteMeta := readRemote (fs.Stat RemoteFS path) in
  let* localMD5 :=
    onLocal (fs.WriteStream LocalFS path downStream (fs.ModTime remoteMeta)) in
  let* localStat :=
    wrapAct "stat local after download failed"
      (readLocal (fs.Stat LocalFS path)) in
  let newState :=
    {| database.RelPath := path;
       database.FileSize := fs.Size localStat;
       database.ModTime := time.UnixNano (fs.ModTime localStat);
       database.LocalHash := localMD5;
       database.RemoteHash := fs.RemoteHash remoteMeta;
       database.IsDir := false;
       database.LastSyncTime := time.UnixSeconds now |} in
  errAct (onDB (database.Put json_Marshal now newState)).

Definition resolveConflict (path : string) : Act unit :=
  match Strategy e with
  | StrategyRenameLocal =>
      let newName := (path ++ ".local")%string in
      let* _ :=
        wrapAct "rename local failed"
          (errAct (onLocal (fs.Rename LocalFS path newName))) in
      doDownload path
  | StrategyRenameRemote =>
      let newName := (path ++ ".remote")%string in
      let* _ :=
        wrapAct "rename remote failed"
          (errAct (onRemote (fs.Rename RemoteFS path newName))) in
      doUpload path
  | StrategyKeepNewest =>
      let* localMeta :=
        wrapAct "stat local failed" (readLocal (fs.Stat LocalFS path)) in
      let* remoteMeta :=
        wrapAct "stat remote failed" (readRemote (fs.Stat RemoteFS path)) in
      if time.After (fs.ModTime localMeta) (fs.ModTime remoteMeta)
      then doUpload path
      else doDownload path
  | StrategyForceUpload =>
      let* _ :=
        wrapAct "delete remote failed"
          (errAct (onRemote (fs.Delete RemoteFS path))) in
      doUpload path
  | StrategyForceDownload =>
      let* _ :=
        wrapAct "delete local failed"
          (errAct (onLocal (fs.Delete LocalFS path))) in
      doDownload path
  end.

Definition processTask (t : Task) : Act unit :=
  match Op t with
  | OpUpload => doUpload (RelPath t)
  | OpDownload => doDownload (RelPath t)
  | OpDeleteRemote =>
      let* _ := errAct (onRemote (fs.Delete RemoteFS (RelPath t))) in
      errAct (onDB (database.Delete (RelPath t)))
  | OpDeleteLocal =>
      let* _ := errAct (onLocal (fs.Delete LocalFS (RelPath t))) in
      errAct (onDB (database.Delete (RelPath t)))
  | OpConflict => resolveConflict (RelPath t)
  | OpIgnore => ret tt
  end.

(** The [StateDB.Put] call inside [rebuildIndex], with its result. *)
Definition rebuildIndexPut (path : string) (l r : fs.FileMeta) (w : World)
    : option error * World :=
  let newState :=
    {| database.RelPath := path;
       database.FileSize := fs.Size l;
       database.ModTime := time.UnixNano (fs.ModTime l);
       database.LocalHash := fs.Hash l;
       database.RemoteHash := fs.Hash l;
       database.IsDir := false;
       database.LastSyncTime := time.UnixSeconds now |} in
  onDB (database.Put json_Marshal now newState) w.

(** [rebuildIndex] has no result: a failing [Put] is logged and
    dropped. *)
Definition rebuildIndex (path : string) (l r : fs.FileMeta) (w : World)
    : World :=
  snd (rebuildIndexPut path l r w).

(** The loop over [allPaths]: a task for every path that is not
    ignored, an inline index rebuild where the base is missing and both
    sides exist. *)
Fixpoint plan (paths : list string)
    (localMap remoteMap : gmap string fs.FileMeta)
    (baseMap : gmap string database.FileState)
    (tasks : list Task) (w : World) : list Task * World :=
  match paths with
  | [] => (tasks, w)
  | path :: rest =>
      let l := localMap !! path in
      let r := remoteMap !! path in
      let b := baseMap !! path in
      let op := compare e path l r b in
      if negb (OpType_eqb op OpIgnore)
      then plan rest localMap remoteMap baseMap
             (tasks ++ [{| Op := op; RelPath := path; Reason := "" |}]) w
      else
        match b, l, r with
        | None, Some l', Some r' =>
            plan rest localMap remoteMap baseMap tasks
              (rebuildIndex path l' r' w)
        | _, _, _ => plan rest localMap remoteMap baseMap tasks w
        end
  end.

(** A worker draining the queue: before each task it looks at the
    context and stops when it is done; a failing task is recorded and
    the next one is taken. *)
Fixpoint drain (ctx : Context) (queue : list Task) (w : World)
    : list error * World :=
  match queue with
  | [] => ([], w)
  | task :: rest =>
      match ctx with
      | Some O => ([], w)
      | _ =>
          let '(r, w') := processTask task w in
          let '(errs, w'') := drain (option_map Nat.pred ctx) rest w' in
          (match r with
           | Fail err => err :: errs
           | Ok _ => errs
           end, w'')
      end
  end.

(** The worker pool.  The workers of the Go code run concurrently on
    tasks of distinct paths; here the queue is drained in order, which
    is the run of the pool in which tasks finish one after another. *)
Definition workers (ctx : Context) (tasks : list Task) (w : World)
    : list error * World :=
  if 0 <? MaxWorkers e then drain ctx tasks w else ([], w).

(** [g.Wait()] on the three scans: all three maps, or the error of the
    failed scan that returned first (the group keeps the first error it
    is given). *)
Definition scanAll (order : list Scan) (w : World)
    : result (gmap string fs.FileMeta * gmap string fs.FileMeta
              * gmap string database.FileState) :=
  let lres := wrapErr "scan local failed" (fs.ListAll LocalFS (wLocal w)) in
  let rres := wrapErr "scan remote failed" (fs.ListAll RemoteFS (wRemote w)) in
  let bres := wrapErr "scan db failed"
                (database.ListAll json_Unmarshal (wDB w)) in
  let errOf := fun s =>
    match s with
    | ScanLocal => toErr lres
    | ScanRemote => toErr rres
    | ScanDB => toErr bres
    end in
  match omap errOf (order ++ [ScanLocal; ScanRemote; ScanDB]) with
  | err :: _ => Fail err
  | [] =>
      match lres, rres, bres with
      | Ok localMap, Ok remoteMap, Ok baseMap =>
          Ok (localMap, remoteMap, baseMap)
      | Fail err, _, _ => Fail err
      | _, Fail err, _ => Fail err
      | _, _, Fail err => Fail err
      end
  end.

Definition Run (order : list Scan) (ctx : Context) (w : World)
    : option error * World :=
  match scanAll order w with
  | Fail err => (Some err, w)
  | Ok (localMap, remoteMap, baseMap) =>
      let allPaths :=
        elements (dom localMap ∪ dom remoteMap ∪ dom baseMap) in
      let '(tasks, w1) := plan allPaths localMap remoteMap baseMap [] w in
      if (length tasks =? 0)%nat then (None, w1)
      else
        let '(errs, w2) := workers ctx tasks w1 in
        if (0 <? length errs)%nat
        then (Some (ErrList "task(s) failed" errs), w2)
        else (None, w2)
  end.
End Engine.

(* ===================================================================== *)
(** ** Fixtures: small stand-ins for the external codecs, used to run
       the engine on concrete trees                                      *)
(* ===================================================================== *)

Module fixture.
(** A stored record is either a well-formed record or damaged bytes. *)
Definition Raw : Type := option database.FileState.

Definition json_Marshal (s : database.FileState) : result Raw := Ok (Some s).

Definition json_Unmarshal (v : Raw) : result database.FileState :=
  match v with
  | Some s => Ok s
  | None => Fail (ErrNew "unexpected end of JSON input")
  end.

(** A checksum standing in for MD5. *)
Definition md5hex (c : list Z) : string :=
  ("h" ++ pretty (fold_left (fun a b => (a * 31 + b) mod 65521) c 7))%string.

Definition emptyDB : bbolt.DB Raw :=
  {| bbolt.opened := true; bbolt.bucket := ∅; bbolt.commitFault := None |}.

(** The same store on a device that rejects every commit. *)
Definition fullDiskDB : bbolt.DB Raw :=
  {| bbolt.opened := true; bbolt.bucket := ∅;
     bbolt.commitFault := Some (ErrNew "no space left on device") |}.

Definition opts (key : list Z) : EngineOptions :=
  NewEngine {| EncryptKey := key; EncryptFilenames := false;
               MaxWorkers := 0; Strategy := StrategyRenameLocal |}.

Definition disk1 (name : string) (c : list Z) (t : time.Time)
    : local.Adapter :=
  {| local.rootDir := "/data";
     local.disk := {[ name := local.File c t ]};
     local.clock := 1700000000 * time.Second |}.

Definition emptyDisk : local.Adapter :=
  {| local.rootDir := "/data"; local.disk := ∅;
     local.clock := 1700000000 * time.Second |}.

Definition randomBytes : io.Reader :=
  io.bytesReader (map Z.of_nat (seq 1 32)).

Definition key32 : list Z := map Z.of_nat (seq 100 32).
Definition localFS : fs.FileSystem local.Adapter := local.FS md5hex.

(** The local adapter on a read-only mount: every change is refused. *)
Definition EROFS : error := ErrNew "read-only file system".

Definition readOnlyFS : fs.FileSystem local.Adapter :=
  {| fs.Root := local.Root;
     fs.ListAll := local.ListAll;
     fs.OpenStream := local.OpenStream;
     fs.WriteStream := fun _ _ _ a => (Fail EROFS, a);
     fs.Delete := fun _ a => (Some EROFS, a);
     fs.Stat := local.Stat md5hex;
     fs.Rename := fun _ _ a => (Some EROFS, a) |}.

Definition now : time.Time := 1700000001 * time.Second.

Definition world (l r : local.Adapter) (d : bbolt.DB Raw)
    : @World local.Adapter local.Adapter Raw :=
  {| wLocal := l; wRemote := r; wDB := d |}.

(** The same three-byte-long file name on both sides, no snapshot, and
    a store that cannot commit. *)
Definition lostSnapshotWorld : @World local.Adapter local.Adapter Raw :=
  world (disk1 "a.txt" [1; 2; 3] 5) (disk1 "a.txt" [9; 9; 9] 7) fullDiskDB.

(** A file to upload to an empty remote. *)
Definition freshUploadWorld : @World local.Adapter local.Adapter Raw :=
  world (disk1 "a.txt" [1; 2; 3] 5) emptyDisk emptyDB.

(** A store in which the record of one key is damaged. *)
Definition corruptDB : bbolt.DB Raw :=
  {| bbolt.opened := true; bbolt.bucket := {[ "b.txt" := None ]};
     bbolt.commitFault := None |}.

Definition someState : database.FileState :=
  {| database.RelPath := "a.txt"; database.FileSize := 3;
     database.ModTime := 5; database.LocalHash := "h13000";
     database.RemoteHash := "h13000"; database.IsDir := false;
     database.LastSyncTime := 0 |}.

Definition trackedDB : bbolt.DB Raw :=
  {| bbolt.opened := true; bbolt.bucket := {[ "a.txt" := Some someState ]};
     bbolt.commitFault := None |}.

(** Stand-ins for the remote API: the server holds the set of paths
    that exist and answers a delete of a missing path with errno -9. *)
Definition Server : Type := list string.

Definition request (method url : string) (params data : list (string * string))
    (s : Server) : result (list Z) * Server :=
  match data with
  | [_; (_, target)] =>
      if existsb (String.eqb target) s
      then (Ok [0], filter (fun x => negb (String.eqb target x) = true) s)
      else (Ok [-9], s)
  | _ => (Fail (ErrNew "bad request"), s)
  end.

Definition json_MarshalStrings (l : list string) : result string :=
  Ok (String.concat "," l).

Definition json_UnmarshalPCS (body : list Z) : result baidu.PCSResponse :=
  match body with
  | [n] => Ok {| baidu.ErrNo := n; baidu.Msg := "" |}
  | _ => Fail (ErrNew "invalid character")
  end.

Definition path_Join (parts : list string) : string := String.concat "/" parts.

Definition EncryptName (name : string) (key : list Z) : result string :=
  Ok name.

End fixture.

(* ===================================================================== *)
(** ** Sample inputs                                                     *)
(* ===================================================================== *)

(** A file whose modification time has been set back to 1601-01-01,
    against a snapshot taken when it read 2024-01-01. *)
Definition ancientLocal : fs.FileMeta :=
  {| fs.RelPath := "notes.txt"; fs.Size := 5;
     fs.ModTime := time.Unix (-11644473600) 0; fs.IsDir := false;
     fs.Hash := ""; fs.RemoteHash := "" |}.

Definition recentBase : database.FileState :=
  {| database.RelPath := "notes.txt"; database.FileSize := 5;
     database.ModTime := 1704067200 * 1000000000;
     database.LocalHash := "0cc175b9c0f1b6a831c399e269772661";
     database.RemoteHash := "0cc175b9c0f1b6a831c399e269772661";
     database.IsDir := false; database.LastSyncTime := 1704067200 |}.

Definition sampleLocal : fs.FileMeta :=
  {| fs.RelPath := "a.txt"; fs.Size := 100;
     fs.ModTime := time.Unix 1700000500 0; fs.IsDir := false;
     fs.Hash := ""; fs.RemoteHash := "" |}.

Definition sampleRemote : fs.FileMeta :=
  {| fs.RelPath := "a.txt"; fs.Size := 116;
     fs.ModTime := time.Unix 1700000000 0; fs.IsDir := false;
     fs.Hash := ""; fs.RemoteHash := "9e107d9d372bb6826bd81d3542a419d6" |}.

Definition sampleBase : database.FileState :=
  {| database.RelPath := "a.txt"; database.FileSize := 100;
     database.ModTime := 1700000000 * 1000000000;
     database.LocalHash := "e4d909c290d0fb1ca068ffaddf22cbd0";
     database.RemoteHash := "9e107d9d372bb6826bd81d3542a419d6";
     database.IsDir := false; database.LastSyncTime := 1700000001 |}.

Definition uploadTask : Task :=
  {| Op := OpUpload; RelPath := "a.txt"; Reason := "" |}.

Definition deleteRemoteTask : Task :=
  {| Op := OpDeleteRemote; RelPath := "a.txt"; Reason := "" |}.

Definition trackedWorld : @World local.Adapter local.Adapter fixture.Raw :=
  fixture.world fixture.emptyDisk (fixture.disk1 "a.txt" [1; 2; 3] 5)
    fixture.trackedDB.

Definition corruptWorld : @World local.Adapter local.Adapter fixture.Raw :=
  fixture.world (fixture.disk1 "a.txt" [1; 2; 3] 5) fixture.emptyDisk
    fixture.corruptDB.

Definition readOnlyRemoteWorld
    : @World local.Adapter local.Adapter fixture.Raw :=
  fixture.world (fixture.disk1 "a.txt" [1; 2; 3] 5) fixture.emptyDisk
    fixture.emptyDB.




(* ===================================================================== *)
(** ** The planned queue                                                 *)
(* ===================================================================== *)

(** The task the driver queues for a path, if any: none when [compare]
    says Ignore. *)
Definition taskFor (e : EngineOptions)
    (localMap remoteMap : gmap string fs.FileMeta)
    (baseMap : gmap string database.FileState) (path : string)
    : option Task :=
  let op := compare e path (localMap !! path) (remoteMap !! path)
              (baseMap !! path) in
  if OpType_eqb op OpIgnore then None
  else Some {| Op := op; RelPath := path; Reason := "" |}.

(** A file in sync on both sides, with its entry. *)
Definition syncedState : database.FileState :=
  {| database.RelPath := "a.txt"; database.FileSize := 3;
     database.ModTime := 5; database.LocalHash := "";
     database.RemoteHash := ""; database.IsDir := false;
     database.LastSyncTime := 0 |}.

Definition syncedWorld : @World local.Adapter local.Adapter fixture.Raw :=
  fixture.world (fixture.disk1 "a.txt" [1; 2; 3] 5)
    (fixture.disk1 "a.txt" [1; 2; 3] 5)
    {| bbolt.opened := true;
       bbolt.bucket := {[ "a.txt" := Some syncedState ]};
       bbolt.commitFault := None |}.


(** A stream that breaks off after two bytes. *)
Definition brokenStream : io.Reader :=
  {| io.data := [1; 2]; io.rerr := Some (ErrNew "connection reset") |}.

(* ===================================================================== *)
(** ** Frames                                                            *)
(* ===================================================================== *)

(** [preserves f m]: step [m] never changes the part [f] of the world,
    whether it succeeds or fails. *)
Definition preserves {SL SR Raw A B : Type} (f : @World SL SR Raw -> B)
    (m : @World SL SR Raw -> A * @World SL SR Raw) : Prop :=
  forall w, f (snd (m w)) = f w.

(** [failKeeps f m]: when step [m] fails, the part [f] of the world is as
    it was before the step. *)
Definition failKeeps {SL SR Raw A B : Type} (f : @World SL SR Raw -> B)
    (m : @World SL SR Raw -> result A * @World SL SR Raw) : Prop :=
  forall w err w', m w = (Fail err, w') -> f w' = f w.

(* ===================================================================== *)
(** * Theorems                                                           *)
(* ===================================================================== *)

(** ** Machine arithmetic *)

Ltac int64_consts :=
  unfold time.minDuration, time.maxDuration, time.Second, EncryptedOverhead,
    Int64.add, Int64.neg, Int64.wrap, Int64.min, Int64.max in *;
  change (2 ^ 63) with 9223372036854775808 in *;
  change (2 ^ 64) with 18446744073709551616 in *.

Lemma wrap_in_range (x : Z) : Int64.inRange x -> Int64.wrap x = x.
Proof.
  unfold Int64.inRange. int64_consts. intros H.
  rewrite Z.mod_small; lia.
Qed.

Lemma wrap_above (x : Z) :
  Int64.max < x <= Int64.max + 2 ^ 63 -> Int64.wrap x < 0.
Proof.
  int64_consts. intros H.
  replace (x + 9223372036854775808)
    with ((x - 9223372036854775808) + 1 * 18446744073709551616) by lia.
  rewrite Z.mod_add by lia. rewrite Z.mod_small; lia.
Qed.

Lemma add_overhead_exact (x y : Z) :
  0 <= x <= Int64.max -> 0 <= y <= Int64.max ->
  (y =? Int64.add x EncryptedOverhead) = (y =? x + 16).
Proof.
  intros Hx Hy.
  destruct (Z_le_gt_dec (x + 16) Int64.max) as [Hfit | Hover].
  - unfold Int64.add, EncryptedOverhead. rewrite wrap_in_range; [reflexivity |].
    unfold Int64.inRange. int64_consts. lia.
  - assert (Hneg : Int64.add x EncryptedOverhead < 0).
    { unfold Int64.add, EncryptedOverhead. apply wrap_above.
      int64_consts. lia. }
    assert (Hne : y <> Int64.add x EncryptedOverhead) by lia.
    apply Z.eqb_neq in Hne. rewrite Hne. symmetry. apply Z.eqb_neq.
    int64_consts. lia.
Qed.

(** ** The diff decider *)

(** C1: with local, remote and base all present and neither side a
    directory, [compare] answers by the two changed-versus-base
    predicates: Ignore when neither side changed, Upload when only the
    local side changed, Download when only the remote side changed,
    Conflict when both changed. *)
Theorem compare_both_present (e : EngineOptions) (relPath : string)
    (l r : fs.FileMeta) (b : database.FileState) :
  fs.IsDir l = false ->
  fs.IsDir r = false ->
  compare e relPath (Some l) (Some r) (Some b) =
    match isLocalSameAsBase l b, isRemoteSameAsBase r b (encrypted e) with
    | true, true => OpIgnore
    | false, true => OpUpload
    | true, false => OpDownload
    | false, false => OpConflict
    end.
Proof.
  intros Hl Hr. unfold compare. cbn [isDirOpt]. rewrite Hl, Hr. cbn [orb].
  destruct (isLocalSameAsBase l b), (isRemoteSameAsBase r b (encrypted e));
    reflexivity.
Qed.

(** C2: with no base, both sides present and neither a directory,
    [compare] returns Ignore exactly when the remote size is the local
    size plus 16 (key configured) or the local size (no key), and
    Conflict otherwise.  Sizes are byte counts: non-negative [int64]. *)
Theorem compare_base_absent_fuzzy (e : EngineOptions) (relPath : string)
    (l r : fs.FileMeta) :
  fs.IsDir l = false ->
  fs.IsDir r = false ->
  0 <= fs.Size l <= Int64.max ->
  0 <= fs.Size r <= Int64.max ->
  let expected := if encrypted e then fs.Size l + 16 else fs.Size l in
  (compare e relPath (Some l) (Some r) None = OpIgnore
     <-> fs.Size r = expected)
  /\ (fs.Size r <> expected
     -> compare e relPath (Some l) (Some r) None = OpConflict).
Proof.
  intros Hl Hr HlS HrS expected. unfold compare. cbn [isDirOpt].
  rewrite Hl, Hr. cbn [orb].
  assert (Hfuzzy : isSameFileFuzzy e l r = (fs.Size r =? expected)).
  { unfold isSameFileFuzzy, expected. destruct (encrypted e).
    - apply add_overhead_exact; assumption.
    - reflexivity. }
  rewrite Hfuzzy.
  destruct (Z.eqb_spec (fs.Size r) expected) as [Heq | Hne]; split.
  - split; intros _; [assumption | reflexivity].
  - intros Hcontra. contradiction.
  - split; [discriminate | intros Heq; contradiction].
  - intros _. reflexivity.
Qed.


(** Scenario "fuzzy rebuild": snapshot lost, 1024 bytes locally, 1040
    bytes remotely, encryption on. *)
Example fuzzy_rebuild_scenario :
  compare (fixture.opts fixture.key32) "d.bin"
    (Some {| fs.RelPath := "d.bin"; fs.Size := 1024; fs.ModTime := 0;
             fs.IsDir := false; fs.Hash := ""; fs.RemoteHash := "" |})
    (Some {| fs.RelPath := "d.bin"; fs.Size := 1040; fs.ModTime := 0;
             fs.IsDir := false; fs.Hash := "";
             fs.RemoteHash := "9e107d9d372bb6826bd81d3542a419d6" |})
    None = OpIgnore.
Proof. reflexivity. Qed.

(** Scenario "deleted locally, unchanged remote". *)
Example deleted_locally_scenario :
  compare (fixture.opts fixture.key32) "a.txt"
    None (Some sampleRemote) (Some sampleBase) = OpDeleteRemote.
Proof. reflexivity. Qed.

(** X5: the local-versus-base predicate, as long as the two modification
    times are less than [2^63] nanoseconds apart in the direction
    "local before base": MD5 equality when both hashes are present,
    otherwise equal sizes and a time difference below two seconds. *)
Lemma isLocalSameAsBase_in_range (l : fs.FileMeta) (b : database.FileState) :
  time.minDuration < fs.ModTime l - database.ModTime b ->
  isLocalSameAsBase l b =
    if nonEmpty (fs.Hash l) && nonEmpty (database.LocalHash b)
    then String.eqb (fs.Hash l) (database.LocalHash b)
    else (fs.Size l =? database.FileSize b)
         && (Z.abs (fs.ModTime l - database.ModTime b) <? 2 * time.Second).
Proof.
  intros Hgap. unfold isLocalSameAsBase.
  destruct (nonEmpty (fs.Hash l) && nonEmpty (database.LocalHash b));
    [reflexivity |].
  destruct (fs.Size l =? database.FileSize b); cbn [negb andb];
    [| reflexivity].
  unfold time.Sub, time.Unix.
  replace (0 * time.Second + database.ModTime b) with (database.ModTime b)
    by lia.
  set (d := fs.ModTime l - database.ModTime b) in *.
  destruct (Z.ltb_spec d time.minDuration) as [Hlow | Hlow]; [lia |].
  destruct (Z.ltb_spec time.maxDuration d) as [Hhigh | Hhigh].
  - (* saturated upwards: far more than two seconds either way *)
    replace (time.maxDuration <? 0) with false by reflexivity.
    int64_consts. symmetry.
    destruct (Z.ltb_spec (Z.abs d) (2 * 1000000000)); [lia |].
    reflexivity.
  - destruct (Z.ltb_spec d 0) as [Hneg | Hpos].
    + unfold Int64.neg. rewrite wrap_in_range.
      * rewrite Z.abs_neq by lia. reflexivity.
      * unfold Int64.inRange. int64_consts. lia.
    + rewrite Z.abs_eq by lia. reflexivity.
Qed.

(** C4: at a local modification time more than [2^63] nanoseconds
    (about 292 years) before the snapshot's, [Sub] saturates at the
    minimum duration, whose negation is itself; the predicate then
    answers "same" although the sizes are equal and the times are
    centuries, not less than two seconds, apart. *)
Theorem isLocalSameAsBase_saturated_gap :
  isLocalSameAsBase ancientLocal recentBase = true
  /\ fs.Hash ancientLocal = ""%string
  /\ fs.Size ancientLocal = database.FileSize recentBase
  /\ 2 * time.Second
       <= Z.abs (fs.ModTime ancientLocal
                 - database.ModTimeAsTime recentBase).
Proof.
  repeat split; vm_compute; congruence.
Qed.

Lemma compare_both_present_witness :
  compare (fixture.opts fixture.key32) "a.txt"
    (Some sampleLocal) (Some sampleRemote) (Some sampleBase) = OpUpload.
Proof.
  rewrite (compare_both_present (fixture.opts fixture.key32) "a.txt"
             sampleLocal sampleRemote sampleBase);
    reflexivity.
Defined.

Lemma compare_base_absent_fuzzy_witness :
  (compare (fixture.opts fixture.key32) "a.txt"
     (Some sampleLocal) (Some sampleRemote) None = OpIgnore
   <-> fs.Size sampleRemote = 116)
  /\ (fs.Size sampleRemote <> 116
      -> compare (fixture.opts fixture.key32) "a.txt"
           (Some sampleLocal) (Some sampleRemote) None = OpConflict).
Proof.
  apply (compare_base_absent_fuzzy (fixture.opts fixture.key32) "a.txt"
           sampleLocal sampleRemote);
    first [reflexivity | vm_compute; split; discriminate].
Defined.

(** ** The stream cipher *)

Section CipherFacts.
Variable aesBlock : list Z -> list Z -> list Z.
(** AES maps every block to a block of the cipher's block size. *)
Hypothesis aesBlock_size :
  forall key blk, length (aesBlock key blk) = crypto.BlockSize.

Lemma keystream_length (key ctr : list Z) (n : nat) :
  length (crypto.keystream (aesBlock key) ctr n) = (16 * n)%nat.
Proof.
  revert ctr. induction n as [| n IH]; intros ctr; cbn [crypto.keystream].
  - reflexivity.
  - rewrite length_app, IH, aesBlock_size. unfold crypto.BlockSize. lia.
Qed.

Lemma blocks_cover (n : nat) : (n <= 16 * ((n + 15) / 16))%nat.
Proof.
  pose proof (Nat.div_mod_eq (n + 15) 16) as Hdm.
  pose proof (Nat.mod_upper_bound (n + 15) 16) as Hlt. lia.
Qed.

Lemma zip_xor_length (src ks : list Z) :
  (length src <= length ks)%nat ->
  length (zip_with Z.lxor src ks) = length src.
Proof.
  revert ks. induction src as [| x src IH]; intros [| k ks] Hlen;
    cbn in *; try lia.
  rewrite IH; [reflexivity | lia].
Qed.

Lemma zip_xor_involutive (src ks : list Z) :
  (length src <= length ks)%nat ->
  zip_with Z.lxor (zip_with Z.lxor src ks) ks = src.
Proof.
  revert ks. induction src as [| x src IH]; intros [| k ks] Hlen;
    cbn in *; try lia; try reflexivity.
  rewrite IH by lia. f_equal.
  rewrite Z.lxor_assoc, Z.lxor_nilpotent, Z.lxor_0_r. reflexivity.
Qed.

Lemma XORKeyStream_length (key iv src : list Z) :
  length (crypto.XORKeyStream (aesBlock key) iv src) = length src.
Proof.
  unfold crypto.XORKeyStream. apply zip_xor_length.
  rewrite keystream_length. apply blocks_cover.
Qed.

Lemma XORKeyStream_involutive (key iv src : list Z) :
  crypto.XORKeyStream (aesBlock key) iv
    (crypto.XORKeyStream (aesBlock key) iv src) = src.
Proof.
  unfold crypto.XORKeyStream at 1. rewrite XORKeyStream_length.
  unfold crypto.XORKeyStream. apply zip_xor_involutive.
  rewrite keystream_length. apply blocks_cover.
Qed.

Lemma NewCipher_valid (key : list Z) :
  crypto.validKey key -> crypto.NewCipher aesBlock key = Ok (aesBlock key).
Proof.
  unfold crypto.validKey, crypto.NewCipher.
  intros [H | [H | H]]; rewrite H; reflexivity.
Qed.

(** C3: for every plaintext and every valid key, once the system
    random source has delivered the 16 bytes of the IV, the encrypting
    reader yields that IV followed by the encrypted body, 16 bytes more
    than the plaintext, and the decrypting reader with the same key
    turns it back into the plaintext. *)
Theorem encrypt_decrypt_roundtrip (P key : list Z) (rnd : io.Reader) :
  crypto.validKey key ->
  (16 <= length (io.data rnd))%nat ->
  exists c : io.Reader,
    crypto.NewEncryptReader aesBlock rnd (io.bytesReader P) key = Ok c
    /\ length (io.data c) = (length P + 16)%nat
    /\ io.data c
         = firstn 16 (io.data rnd)
           ++ crypto.XORKeyStream (aesBlock key)
                (firstn 16 (io.data rnd)) P
    /\ crypto.NewDecryptReader aesBlock c key = Ok (io.bytesReader P).
Proof.
  intros Hkey Hrnd.
  set (iv := firstn 16 (io.data rnd)).
  assert (Hiv : length iv = 16%nat).
  { unfold iv. rewrite length_firstn. lia. }
  exists (io.MultiReader iv
            (crypto.StreamReader (aesBlock key) iv (io.bytesReader P))).
  unfold crypto.NewEncryptReader, crypto.NewDecryptReader.
  rewrite (NewCipher_valid key Hkey).
  unfold io.ReadFull, crypto.BlockSize.
  destruct (Nat.leb_spec 16 (length (io.data rnd))) as [_ | Hlt]; [| lia].
  fold iv. cbn [io.MultiReader crypto.StreamReader io.data io.rerr
                  io.bytesReader].
  repeat split.
  - rewrite length_app, XORKeyStream_length. lia.
  - assert (Hle : (16 <=? length (iv ++ crypto.XORKeyStream (aesBlock key) iv P))%nat
                  = true).
    { apply Nat.leb_le. rewrite length_app. lia. }
    rewrite Hle.
    set (body := crypto.XORKeyStream (aesBlock key) iv P).
    assert (Htake : firstn 16 (iv ++ body) = iv).
    { rewrite <- Hiv. apply take_app_length. }
    assert (Hdrop : skipn 16 (iv ++ body) = body).
    { rewrite <- Hiv. apply drop_app_length. }
    rewrite Htake, Hdrop. unfold body.
    unfold crypto.StreamReader, io.bytesReader.
    cbn [io.data io.rerr]. rewrite XORKeyStream_involutive. reflexivity.
Qed.
End CipherFacts.

Lemma toyBlock_size (key blk : list Z) :
  length (crypto.toyBlock key blk) = crypto.BlockSize.
Proof. reflexivity. Qed.

Lemma encrypt_decrypt_roundtrip_witness :
  exists c : io.Reader,
    crypto.NewEncryptReader crypto.toyBlock fixture.randomBytes
      (io.bytesReader [104; 105; 33]) fixture.key32 = Ok c
    /\ length (io.data c) = (3 + 16)%nat
    /\ io.data c
         = firstn 16 (io.data fixture.randomBytes)
           ++ crypto.XORKeyStream (crypto.toyBlock fixture.key32)
                (firstn 16 (io.data fixture.randomBytes)) [104; 105; 33]
    /\ crypto.NewDecryptReader crypto.toyBlock c fixture.key32
         = Ok (io.bytesReader [104; 105; 33]).
Proof.
  apply (encrypt_decrypt_roundtrip crypto.toyBlock toyBlock_size
           [104; 105; 33] fixture.key32 fixture.randomBytes).
  - right; right; reflexivity.
  - vm_compute. lia.
Defined.

(** ** The snapshot store *)

Section StoreFacts.
Context {Raw : Type}.
Variable json_Marshal : database.FileState -> result Raw.
Variable json_Unmarshal : Raw -> result database.FileState.

Lemma forEach_corrupt (kvs : list (string * Raw))
    (acc : gmap string database.FileState) (k : string) (v : Raw)
    (err : error) :
  In (k, v) kvs ->
  json_Unmarshal v = Fail err ->
  exists err', database.forEach json_Unmarshal kvs acc = Fail err'.
Proof.
  intros Hin Hbad. revert acc.
  induction kvs as [| [k0 v0] rest IH]; intros acc; [destruct Hin |].
  cbn [database.forEach].
  destruct (json_Unmarshal v0) as [st | err0] eqn:Hv0.
  - destruct Hin as [Heq | Hin].
    + inversion Heq; subst. congruence.
    + apply IH. assumption.
  - eexists. reflexivity.
Qed.

Lemma ListAll_corrupt (d : bbolt.DB Raw) (k : string) (v : Raw)
    (err : error) :
  bbolt.bucket d !! k = Some v ->
  json_Unmarshal v = Fail err ->
  exists err', database.ListAll json_Unmarshal d = Fail err'.
Proof.
  intros Hk Hbad. unfold database.ListAll, bbolt.View.
  destruct (bbolt.opened d); [| eexists; reflexivity].
  apply (forEach_corrupt _ _ k v err); [| assumption].
  apply list_elem_of_In. apply elem_of_map_to_list. assumption.
Qed.

(** A successful [Put] leaves the record under its path, and [Get]
    reads it back when the codec round-trips. *)
Lemma Put_then_Get (now : time.Time) (st : database.FileState)
    (d d' : bbolt.DB Raw) :
  (forall s raw, json_Marshal s = Ok raw -> json_Unmarshal raw = Ok s) ->
  database.Put json_Marshal now st d = (None, d') ->
  database.Get json_Unmarshal (database.RelPath st) d'
    = Ok (Some (database.setLastSyncTime (time.UnixNano now) st)).
Proof.
  intros Hrt. unfold database.Put.
  set (st' := database.setLastSyncTime (time.UnixNano now) st).
  destruct (json_Marshal st') as [data | err] eqn:Hm; [| discriminate].
  unfold bbolt.Update, bbolt.Put. cbn [database.RelPath st'].
  change (database.RelPath st') with (database.RelPath st).
  destruct (bbolt.opened d); [| discriminate].
  destruct (String.length (database.RelPath st) =? 0)%nat; [discriminate |].
  destruct (bbolt.MaxKeySize <? Z.of_nat (String.length (database.RelPath st)));
    [discriminate |].
  destruct (bbolt.commitFault d); [discriminate |].
  intros Heq. inversion Heq; subst d'; clear Heq.
  unfold database.Get, bbolt.View. cbn [bbolt.opened bbolt.bucket].
  rewrite lookup_insert_eq. rewrite (Hrt _ _ Hm). reflexivity.
Qed.

Lemma Update_fail_unchanged (fn : gmap string Raw -> result (gmap string Raw))
    (d d' : bbolt.DB Raw) (err : error) :
  bbolt.Update fn d = (Some err, d') -> d' = d.
Proof.
  unfold bbolt.Update.
  destruct (bbolt.opened d); [| intros H; inversion H; reflexivity].
  destruct (fn (bbolt.bucket d)); [| intros H; inversion H; reflexivity].
  destruct (bbolt.commitFault d); intros H; inversion H; reflexivity.
Qed.

(** A successful [Delete] removes the entry of its path and no other. *)
Lemma Delete_leaves (p : string) (d d' : bbolt.DB Raw) :
  database.Delete p d = (None, d') ->
  bbolt.bucket d' !! p = None
  /\ forall k, k <> p -> bbolt.bucket d' !! k = bbolt.bucket d !! k.
Proof.
  unfold database.Delete, bbolt.Update, bbolt.Delete.
  destruct (bbolt.opened d); [| discriminate].
  destruct (bbolt.commitFault d); [discriminate |].
  intros H. inversion H; subst d'; clear H. cbn [bbolt.bucket]. split.
  - apply lookup_delete_eq.
  - intros k Hk. apply lookup_delete_ne. congruence.
Qed.

Lemma Delete_commits (p : string) (d : bbolt.DB Raw) :
  bbolt.opened d = true ->
  bbolt.commitFault d = None ->
  exists d', database.Delete p d = (None, d').
Proof.
  intros Hopen Hfault. unfold database.Delete, bbolt.Update, bbolt.Delete.
  rewrite Hopen, Hfault. eexists. reflexivity.
Qed.
End StoreFacts.

(** ** The engine over arbitrary file-system implementations *)

Section EngineFacts.
Context {SL SR Raw : Type}.
Variable LocalFS : fs.FileSystem SL.
Variable RemoteFS : fs.FileSystem SR.
Variable json_Marshal : database.FileState -> result Raw.
Variable json_Unmarshal : Raw -> result database.FileState.
Variable aesBlock : list Z -> list Z -> list Z.
Variable rand_Reader : io.Reader.
Variable now : time.Time.
Variable e : EngineOptions.

Abbreviation World := (@World SL SR Raw).
Abbreviation processTaskE :=
  (processTask LocalFS RemoteFS json_Marshal aesBlock rand_Reader now e).
Abbreviation drainE :=
  (drain LocalFS RemoteFS json_Marshal aesBlock rand_Reader now e).
Abbreviation planE := (plan json_Marshal now e).
Abbreviation scanAllE := (scanAll LocalFS RemoteFS json_Unmarshal).
Abbreviation scans := (list Scan).
Abbreviation RunE :=
  (Run LocalFS RemoteFS json_Marshal json_Unmarshal aesBlock rand_Reader
     now e).

Lemma onRemote_keeps_db {A} (f : SR -> A * SR) (w w1 : World) (a : A) :
  onRemote f w = (a, w1) -> wDB w1 = wDB w /\ wLocal w1 = wLocal w.
Proof.
  unfold onRemote. destruct (f (wRemote w)) as [a' r'].
  intros H. inversion H; subst. split; reflexivity.
Qed.

Lemma onLocal_keeps_db {A} (f : SL -> A * SL) (w w1 : World) (a : A) :
  onLocal f w = (a, w1) -> wDB w1 = wDB w /\ wRemote w1 = wRemote w.
Proof.
  unfold onLocal. destruct (f (wLocal w)) as [a' l'].
  intros H. inversion H; subst. split; reflexivity.
Qed.

(** The store step of a delete task: when it succeeds the entry of the
    path is gone, every other entry and both trees are as before; when it
    fails nothing has changed; on an open store that can commit it
    succeeds. *)
Lemma store_delete_step (p : string) (w1 : World) :
  (forall w',
      errAct (onDB (database.Delete p)) w1 = (Ok tt, w') ->
      bbolt.bucket (wDB w') !! p = None
      /\ (forall k, k <> p ->
            bbolt.bucket (wDB w') !! k = bbolt.bucket (wDB w1) !! k)
      /\ wLocal w' = wLocal w1 /\ wRemote w' = wRemote w1)
  /\ (forall err w',
        errAct (onDB (database.Delete p)) w1 = (Fail err, w') -> w' = w1)
  /\ (bbolt.opened (wDB w1) = true ->
      bbolt.commitFault (wDB w1) = None ->
      exists w', errAct (onDB (database.Delete p)) w1 = (Ok tt, w')).
Proof.
  unfold errAct, onDB. split; [| split].
  - intros w'.
    destruct (database.Delete p (wDB w1)) as [[err |] d'] eqn:Hdel;
      cbn [toResult]; intros H; inversion H; subst w'; clear H.
    destruct (Delete_leaves p _ _ Hdel) as [Hgone Hrest].
    cbn [wDB wLocal wRemote]. repeat split; assumption.
  - intros err w'.
    destruct (database.Delete p (wDB w1)) as [[err' |] d'] eqn:Hdel;
      cbn [toResult]; intros H; inversion H; subst; clear H.
    unfold database.Delete in Hdel.
    rewrite (Update_fail_unchanged _ _ _ _ Hdel).
    destruct w1; reflexivity.
  - intros Hopen Hfault.
    destruct (Delete_commits p (wDB w1) Hopen Hfault) as [d' Hdel].
    rewrite Hdel. eexists. reflexivity.
Qed.

(** C7: a DeleteRemote (DeleteLocal) task first deletes on the
    remote (local) side, leaving the world [w1] with result [o]; the
    snapshot store is untouched by that step.  When the delete failed,
    the task returns that very error in [w1], so the entry is still
    there.  Only when it succeeded does the task go on to the store, in
    [w1]: a task that then returns nil has removed the entry of its path
    and nothing else; a task that then fails has left the store as it
    was; and on an open store that can commit the task does return
    nil. *)
Theorem delete_task_order (t : Task) (w w1 : World) (o : option error) :
  (Op t = OpDeleteRemote
     /\ onRemote (fs.Delete RemoteFS (RelPath t)) w = (o, w1))
  \/ (Op t = OpDeleteLocal
     /\ onLocal (fs.Delete LocalFS (RelPath t)) w = (o, w1)) ->
  wDB w1 = wDB w
  /\ match o with
     | Some err =>
         processTaskE t w = (Fail err, w1)
         /\ bbolt.bucket (wDB (snd (processTaskE t w))) !! RelPath t
            = bbolt.bucket (wDB w) !! RelPath t
     | None =>
         processTaskE t w
           = errAct (onDB (database.Delete (RelPath t))) w1
         /\ (forall w',
               processTaskE t w = (Ok tt, w') ->
               bbolt.bucket (wDB w') !! RelPath t = None
               /\ (forall k, k <> RelPath t ->
                     bbolt.bucket (wDB w') !! k = bbolt.bucket (wDB w) !! k)
               /\ wLocal w' = wLocal w1 /\ wRemote w' = wRemote w1)
         /\ (forall err w', processTaskE t w = (Fail err, w') -> w' = w1)
         /\ (bbolt.opened (wDB w) = true ->
             bbolt.commitFault (wDB w) = None ->
             exists w', processTaskE t w = (Ok tt, w'))
     end.
Proof.
  intros Hrun.
  assert (Hsteps :
            wDB w1 = wDB w
            /\ processTaskE t w
               = bind (lift (toResult o))
                   (fun _ => errAct (onDB (database.Delete (RelPath t)))) w1).
  { destruct Hrun as [[Hop Hdel] | [Hop Hdel]].
    - destruct (onRemote_keeps_db _ _ _ _ Hdel) as [Hdb _].
      split; [assumption |].
      assert (Hact : errAct (onRemote (fs.Delete RemoteFS (RelPath t))) w
                     = (toResult o, w1))
        by (unfold errAct; rewrite Hdel; reflexivity).
      unfold processTask. rewrite Hop. unfold bind, lift. rewrite Hact.
      reflexivity.
    - destruct (onLocal_keeps_db _ _ _ _ Hdel) as [Hdb _].
      split; [assumption |].
      assert (Hact : errAct (onLocal (fs.Delete LocalFS (RelPath t))) w
                     = (toResult o, w1))
        by (unfold errAct; rewrite Hdel; reflexivity).
      unfold processTask. rewrite Hop. unfold bind, lift. rewrite Hact.
      reflexivity. }
  destruct Hsteps as [Hdb Htask]. split; [exact Hdb |].
  rewrite Htask. unfold bind, lift.
  destruct o as [err |]; cbn [toResult].
  - split; [reflexivity |]. cbn [snd]. rewrite Hdb. reflexivity.
  - destruct (store_delete_step (RelPath t) w1) as (Hok & Hfail & Hcommit).
    split; [reflexivity |]. split; [| split].
    + intros w' Hw'. destruct (Hok w' Hw') as (Hgone & Hrest & Hl & Hr).
      rewrite <- Hdb. repeat split; assumption.
    + exact Hfail.
    + rewrite <- Hdb. exact Hcommit.
Qed.

Lemma omap_all_None {A B} (f : A -> option B) (l : list A) :
  (forall x, f x = None) -> omap f l = [].
Proof.
  intros Hf. induction l as [| x l IH]; [reflexivity |].
  cbn [omap list_omap]. rewrite (Hf x). exact IH.
Qed.

(** When the three scans succeed, [scanAll] gives their maps, whatever
    the order in which they return. *)
Lemma scanAll_all_ok (order : scans) (w : World)
    (lm rm : gmap string fs.FileMeta) (bm : gmap string database.FileState) :
  fs.ListAll LocalFS (wLocal w) = Ok lm ->
  fs.ListAll RemoteFS (wRemote w) = Ok rm ->
  database.ListAll json_Unmarshal (wDB w) = Ok bm ->
  scanAllE order w = Ok (lm, rm, bm).
Proof.
  intros Hl Hr Hb. unfold scanAll. rewrite Hl, Hr, Hb. cbn [wrapErr toErr].
  rewrite omap_all_None; [reflexivity |]. intros []; reflexivity.
Qed.


(** When a scan fails, [scanAll] fails with the wrapped error of one of
    the scans that failed, whatever the order in which they return. *)
Lemma scanAll_fails (order : scans) (w : World) (cause : error) :
  fs.ListAll LocalFS (wLocal w) = Fail cause
  \/ fs.ListAll RemoteFS (wRemote w) = Fail cause
  \/ database.ListAll json_Unmarshal (wDB w) = Fail cause ->
  exists msg cause',
    scanAllE order w = Fail (ErrWrap msg cause')
    /\ (fs.ListAll LocalFS (wLocal w) = Fail cause'
        \/ fs.ListAll RemoteFS (wRemote w) = Fail cause'
        \/ database.ListAll json_Unmarshal (wDB w) = Fail cause').
Proof.
  intros Hscan. unfold scanAll.
  set (lres := wrapErr "scan local failed" (fs.ListAll LocalFS (wLocal w))).
  set (rres := wrapErr "scan remote failed" (fs.ListAll RemoteFS (wRemote w))).
  set (bres := wrapErr "scan db failed"
                 (database.ListAll json_Unmarshal (wDB w))).
  set (errOf := fun s : Scan =>
                  match s with
                  | ScanLocal => toErr lres
                  | ScanRemote => toErr rres
                  | ScanDB => toErr bres
                  end).
  assert (HerrOf : forall s err,
             errOf s = Some err ->
             exists msg cause',
               err = ErrWrap msg cause'
               /\ (fs.ListAll LocalFS (wLocal w) = Fail cause'
                   \/ fs.ListAll RemoteFS (wRemote w) = Fail cause'
                   \/ database.ListAll json_Unmarshal (wDB w) = Fail cause')).
  { intros s err. unfold errOf, lres, rres, bres.
    destruct s.
    - destruct (fs.ListAll LocalFS (wLocal w)) as [? | el];
        cbn [wrapErr toErr]; intros H; inversion H; subst.
      do 2 eexists. split; [reflexivity | left; reflexivity].
    - destruct (fs.ListAll RemoteFS (wRemote w)) as [? | er];
        cbn [wrapErr toErr]; intros H; inversion H; subst.
      do 2 eexists. split; [reflexivity | right; left; reflexivity].
    - destruct (database.ListAll json_Unmarshal (wDB w)) as [? | eb];
        cbn [wrapErr toErr]; intros H; inversion H; subst.
      do 2 eexists. split; [reflexivity | right; right; reflexivity]. }
  destruct (omap errOf (order ++ [ScanLocal; ScanRemote; ScanDB]))
    as [| err rest] eqn:Hfirst.
  - exfalso.
    assert (Hnone : forall s, errOf s = None).
    { intros s. destruct (errOf s) as [err |] eqn:Hs; [| reflexivity].
      assert (Hin : err ∈ omap errOf (order ++ [ScanLocal; ScanRemote; ScanDB])).
      { apply list_elem_of_omap. exists s. split; [| exact Hs].
        apply elem_of_app. right. destruct s.
        - apply list_elem_of_here.
        - apply list_elem_of_further, list_elem_of_here.
        - apply list_elem_of_further, list_elem_of_further, list_elem_of_here. }
      rewrite Hfirst in Hin. inversion Hin. }
    pose proof (Hnone ScanLocal) as H1. pose proof (Hnone ScanRemote) as H2.
    pose proof (Hnone ScanDB) as H3. unfold errOf, lres, rres, bres in H1, H2, H3.
    destruct Hscan as [H | [H | H]]; rewrite H in *; discriminate.
  - assert (Hin : err ∈ omap errOf (order ++ [ScanLocal; ScanRemote; ScanDB]))
      by (rewrite Hfirst; apply list_elem_of_here).
    apply list_elem_of_omap in Hin. destruct Hin as (s & _ & Hs).
    destruct (HerrOf s err Hs) as (msg & cause' & -> & Hcause).
    exists msg, cause'. split; [reflexivity | exact Hcause].
Qed.

(** C8: when the record of any single key fails to deserialise,
    [ListAll] of the snapshot store returns an error and no map, and
    the cycle that asked for the listing returns an error without
    having touched anything, in whatever order the scans return. *)
Theorem ListAll_fails_on_corrupt_record (w : World) (ctx : Context)
    (k : string) (v : Raw) (cause : error) :
  bbolt.bucket (wDB w) !! k = Some v ->
  json_Unmarshal v = Fail cause ->
  (exists err, database.ListAll json_Unmarshal (wDB w) = Fail err)
  /\ (forall order, exists err, RunE order ctx w = (Some err, w)).
Proof.
  intros Hk Hbad.
  destruct (ListAll_corrupt json_Unmarshal (wDB w) k v cause Hk Hbad)
    as [err Herr].
  split; [exists err; exact Herr |].
  intros order.
  destruct (scanAll_fails order w err) as (msg & cause' & Hscan & _); [auto |].
  eexists. unfold Run. rewrite Hscan. reflexivity.
Qed.

Lemma drain_reports (ctx : Context) (pre post : list Task) (t : Task)
    (w w' : World) (err : error) :
  ctxAllows ctx (length pre) ->
  processTaskE t (snd (drainE None pre w)) = (Fail err, w') ->
  In err (fst (drainE ctx (pre ++ t :: post) w)).
Proof.
  revert ctx w. induction pre as [| a pre IH]; intros ctx w Hctx Hfail.
  - cbn [app drain snd] in *.
    destruct ctx as [[| n] |]; cbn in Hctx; try lia;
      rewrite Hfail;
      destruct (drainE _ post w') as [errs w'']; cbn; auto.
  - cbn [app drain] in *.
    cbn [option_map] in Hfail.
    destruct (processTaskE a w) as [r w1] eqn:Ha.
    destruct (drainE None pre w1) as [errs1 w2] eqn:Hpre.
    cbn [snd] in Hfail.
    assert (Hfail' : processTaskE t (snd (drainE None pre w1)) = (Fail err, w'))
      by (rewrite Hpre; exact Hfail).
    destruct ctx as [[| n] |]; cbn in Hctx; try lia.
    + specialize (IH (Some n) w1).
      cbn [option_map Nat.pred].
      destruct (drainE (Some n) (pre ++ t :: post) w1) as [errs w3] eqn:Hd.
      assert (Hin : In err errs)
        by (apply IH; [cbn; lia | exact Hfail']).
      destruct r; cbn; auto.
    + specialize (IH None w1).
      cbn [option_map].
      destruct (drainE None (pre ++ t :: post) w1) as [errs w3] eqn:Hd.
      assert (Hin : In err errs)
        by (apply IH; [exact I | exact Hfail']).
      destruct r; cbn; auto.
Qed.

(** C9, as the code has it: a failing scan is returned as the
    cycle's error (the one of the failed scans that returned first),
    directly and before anything is changed; and every
    error returned by a task that a worker ran is part of the one
    summary error that [RunE] returns.  (The [Put] of an inline index
    rebuild is outside both: its error is logged, not returned.) *)
Theorem Run_reports_scan_and_task_errors (order : scans) (ctx : Context)
    (w : World) :
  0 < MaxWorkers e ->
  (forall cause,
      fs.ListAll LocalFS (wLocal w) = Fail cause
      \/ fs.ListAll RemoteFS (wRemote w) = Fail cause
      \/ database.ListAll json_Unmarshal (wDB w) = Fail cause ->
      exists msg cause',
        RunE order ctx w = (Some (ErrWrap msg cause'), w)
        /\ (fs.ListAll LocalFS (wLocal w) = Fail cause'
            \/ fs.ListAll RemoteFS (wRemote w) = Fail cause'
            \/ database.ListAll json_Unmarshal (wDB w) = Fail cause'))
  /\ (forall lm rm bm tasks w1 pre t post err w',
        scanAllE order w = Ok (lm, rm, bm) ->
        planE (elements (dom lm ∪ dom rm ∪ dom bm)) lm rm bm [] w
          = (tasks, w1) ->
        tasks = pre ++ t :: post ->
        ctxAllows ctx (length pre) ->
        processTaskE t (snd (drainE None pre w1)) = (Fail err, w') ->
        exists errs,
          fst (RunE order ctx w) = Some (ErrList "task(s) failed" errs)
          /\ In err errs).
Proof.
  intros Hworkers. split.
  - intros cause Hscan.
    destruct (scanAll_fails order w cause Hscan) as (msg & cause' & Hfail & Hc).
    exists msg, cause'. split; [| exact Hc].
    unfold Run. rewrite Hfail. reflexivity.
  - intros lm rm bm tasks w1 pre t post err w' Hscan Hplan Htasks Hctx Hfail.
    unfold Run. rewrite Hscan, Hplan.
    assert (Hlen : (length tasks =? 0)%nat = false).
    { subst tasks. rewrite length_app. cbn [length].
      apply Nat.eqb_neq. lia. }
    rewrite Hlen. unfold workers.
    assert (Hw : (0 <? MaxWorkers e) = true) by (apply Z.ltb_lt; exact Hworkers).
    rewrite Hw.
    pose proof (drain_reports ctx pre post t w1 w' err Hctx Hfail) as Hin.
    rewrite <- Htasks in Hin.
    destruct (drainE ctx tasks w1) as [errs w2]. cbn [fst] in Hin.
    assert (Hpos : (0 <? length errs)%nat = true).
    { destruct errs; [destruct Hin | reflexivity]. }
    rewrite Hpos. exists errs. split; [reflexivity | exact Hin].
Qed.

(** *** Snapshot loss and deletion *)

Lemma rebuildIndex_keeps_trees (p : string) (l r : fs.FileMeta) (w : World) :
  wLocal (rebuildIndex json_Marshal now p l r w) = wLocal w
  /\ wRemote (rebuildIndex json_Marshal now p l r w) = wRemote w.
Proof.
  unfold rebuildIndex, rebuildIndexPut, onDB.
  destruct (database.Put _ _ _ (wDB w)). split; reflexivity.
Qed.

(** The queue that [plan] builds: the tasks of the paths, in order; the
    inline rebuilds change neither tree. *)
Lemma plan_acc (paths : list string) (lm rm : gmap string fs.FileMeta)
    (bm : gmap string database.FileState) (acc : list Task) (w : World) :
  fst (planE paths lm rm bm acc w) = acc ++ omap (taskFor e lm rm bm) paths
  /\ wLocal (snd (planE paths lm rm bm acc w)) = wLocal w
  /\ wRemote (snd (planE paths lm rm bm acc w)) = wRemote w.
Proof.
  revert acc w. induction paths as [| p rest IH]; intros acc w.
  - cbn. rewrite app_nil_r. repeat split.
  - cbn [plan omap list_omap].
    set (op := compare e p (lm !! p) (rm !! p) (bm !! p)).
    destruct (OpType_eqb op OpIgnore) eqn:Hop; cbn [negb].
    + assert (Hnone : taskFor e lm rm bm p = None)
        by (unfold taskFor; fold op; rewrite Hop; reflexivity).
      rewrite Hnone.
      destruct (bm !! p) as [b |], (lm !! p) as [l |], (rm !! p) as [r |];
        try apply IH.
      destruct (IH acc (rebuildIndex json_Marshal now p l r w))
        as (Ht & Hl & Hr).
      destruct (rebuildIndex_keeps_trees p l r w) as [Hl' Hr'].
      rewrite Ht, Hl, Hr, Hl', Hr'. repeat split.
    + assert (Hsome : taskFor e lm rm bm p
                      = Some {| Op := op; RelPath := p; Reason := "" |})
        by (unfold taskFor; fold op; rewrite Hop; reflexivity).
      rewrite Hsome.
      destruct (IH (acc ++ [{| Op := op; RelPath := p; Reason := "" |}]) w)
        as (Ht & Hl & Hr).
      rewrite Ht, Hl, Hr, <- app_assoc. repeat split.
Qed.

Lemma taskFor_Some (lm rm : gmap string fs.FileMeta)
    (bm : gmap string database.FileState) (p : string) (t : Task) :
  taskFor e lm rm bm p = Some t ->
  RelPath t = p
  /\ Op t = compare e p (lm !! p) (rm !! p) (bm !! p)
  /\ Op t <> OpIgnore.
Proof.
  unfold taskFor.
  destruct (OpType_eqb _ OpIgnore) eqn:Hop; [discriminate |].
  intros H. inversion H; subst; cbn. repeat split.
  intros Heq. rewrite Heq in Hop. discriminate Hop.
Qed.


Section WithoutDelete.
Variable delL : string -> SL -> option error * SL.
Variable delR : string -> SR -> option error * SR.



End WithoutDelete.
End EngineFacts.

(** ** The transfer pipeline on the local-disk adapter *)

Section TransferFacts.
Context {SR Raw : Type}.
Variable md5hex : list Z -> string.
Variable RemoteFS : fs.FileSystem SR.
Variable json_Marshal : database.FileState -> result Raw.
Variable json_Unmarshal : Raw -> result database.FileState.
Variable aesBlock : list Z -> list Z -> list Z.
Variable rand_Reader : io.Reader.
Variable now : time.Time.
Variable e : EngineOptions.
Hypothesis json_roundtrip :
  forall s raw, json_Marshal s = Ok raw -> json_Unmarshal raw = Ok s.

Abbreviation World := (@World local.Adapter SR Raw).
Abbreviation LocalFS := (local.FS md5hex).

Lemma local_Stat_file (p : string) (a : local.Adapter) (stat : fs.FileMeta) :
  local.Stat md5hex p a = Ok stat ->
  local.isDirAt p a = false ->
  exists c mt,
    local.disk a !! p = Some (local.File c mt)
    /\ fs.Hash stat = md5hex c.
Proof.
  unfold local.Stat, local.isDirAt, local.calculateMD5.
  destruct (local.disk a !! p) as [[c mt | sz mt] |];
    intros H Hdir; try discriminate.
  inversion H; subst. exists c, mt. split; reflexivity.
Qed.

Lemma local_WriteStream_ok (p : string) (stream : io.Reader)
    (modTime : time.Time) (a a' : local.Adapter) (h : string) :
  local.WriteStream md5hex p stream modTime a = (Ok h, a') ->
  exists mt,
    local.disk a' !! p = Some (local.File (io.data stream) mt)
    /\ h = md5hex (io.data stream).
Proof.
  unfold local.WriteStream.
  destruct (local.os_MkdirAllParent (local.clock a) p (local.disk a))
    as [d1 | err]; [| discriminate].
  destruct (local.os_Create (local.clock a) p d1) as [d2 | err];
    [| discriminate].
  destruct (io.rerr stream); [discriminate |].
  unfold local.calculateMD5.
  destruct (time.IsZero modTime); cbn [negb];
    rewrite lookup_insert_eq; intros H; inversion H; subst;
    cbn [local.withDisk local.disk]; rewrite lookup_insert_eq;
    eexists; split; reflexivity.
Qed.

(** C5: after a successful Upload or Download task for a path, the
    snapshot store has an entry for the path, the path is a regular
    file on the local disk, and the entry's [local_hash] is the MD5 of
    that file's content as the task leaves it.  (Upload takes the
    hash from the re-stat of the local file, Download from the MD5
    computed after writing it.) *)
Theorem transfer_records_local_hash (t : Task) (w w' : World) :
  (Op t = OpUpload /\ local.isDirAt (RelPath t) (wLocal w) = false)
  \/ Op t = OpDownload ->
  processTask LocalFS RemoteFS json_Marshal aesBlock rand_Reader now e t w
    = (Ok tt, w') ->
  exists st c mt,
    database.Get json_Unmarshal (RelPath t) (wDB w') = Ok (Some st)
    /\ local.disk (wLocal w') !! RelPath t = Some (local.File c mt)
    /\ database.LocalHash st = md5hex c.
Proof.
  intros [[Hop Hfile] | Hop] Hrun; unfold processTask in Hrun;
    rewrite Hop in Hrun.
  - unfold doUpload, bind, readLocal, lift, wrapAct, errAct in Hrun.
    cbn [fs.OpenStream fs.Stat LocalFS local.FS] in Hrun.
    destruct (local.OpenStream (RelPath t) (wLocal w)) as [reader | ?];
      [| discriminate].
    destruct (if encrypted e then _ else _) as [uploadStream | ?];
      [| discriminate].
    destruct (onRemote _ w) as [[cloudMD5 | ?] w1] eqn:Hwrite;
      [| discriminate].
    destruct (onRemote_keeps_db _ _ _ _ Hwrite) as [Hdb Hloc].
    destruct (local.Stat md5hex (RelPath t) (wLocal w1)) as [stat | ?]
      eqn:Hstat; cbn [wrapErr] in Hrun; [| discriminate].
    rewrite Hloc in Hstat.
    destruct (local_Stat_file _ _ _ Hstat Hfile) as (c & mt & Hdisk & Hhash).
    unfold onDB in Hrun.
    destruct (database.Put _ _ _ (wDB w1)) as [[? |] d'] eqn:Hput;
      cbn [toResult] in Hrun; [discriminate |].
    inversion Hrun; subst w'; clear Hrun. cbn [wDB wLocal].
    pose proof (Put_then_Get _ _ _ _ _ _ json_roundtrip Hput) as Hget.
    cbn [database.RelPath] in Hget.
    eexists; exists c, mt. split; [exact Hget |].
    split; [rewrite Hloc; exact Hdisk |].
    cbn [database.setLastSyncTime database.LocalHash]. exact Hhash.
  - unfold doDownload, bind, readRemote, readLocal, lift, wrapAct, errAct
      in Hrun.
    cbn [fs.WriteStream fs.Stat LocalFS local.FS] in Hrun.
    destruct (fs.OpenStream RemoteFS (RelPath t) (wRemote w))
      as [reader | ?]; [| discriminate].
    destruct (if encrypted e then _ else _) as [downStream | ?];
      [| discriminate].
    destruct (fs.Stat RemoteFS (RelPath t) (wRemote w))
      as [remoteMeta | ?]; [| discriminate].
    unfold onLocal in Hrun.
    destruct (local.WriteStream md5hex (RelPath t) downStream
                (fs.ModTime remoteMeta) (wLocal w))
      as [[localMD5 | ?] a'] eqn:Hwrite; [| discriminate].
    destruct (local_WriteStream_ok _ _ _ _ _ _ Hwrite) as (mt & Hdisk & Hmd5).
    cbn [wLocal] in Hrun.
    destruct (local.Stat md5hex (RelPath t) a') as [localStat | ?];
      cbn [wrapErr] in Hrun; [| discriminate].
    unfold onDB in Hrun. cbn [wDB wLocal wRemote] in Hrun.
    destruct (database.Put _ _ _ (wDB w)) as [[? |] d'] eqn:Hput;
      cbn [toResult] in Hrun; [discriminate |].
    inversion Hrun; subst w'; clear Hrun. cbn [wDB wLocal].
    pose proof (Put_then_Get _ _ _ _ _ _ json_roundtrip Hput) as Hget.
    cbn [database.RelPath] in Hget.
    eexists; exists (io.data downStream), mt. split; [exact Hget |].
    split; [exact Hdisk |].
    cbn [database.setLastSyncTime database.LocalHash]. exact Hmd5.
Qed.
End TransferFacts.

(** ** Deleting a path that does not exist *)




(** ** Concrete runs *)

Abbreviation runFixture :=
  (Run fixture.localFS fixture.localFS fixture.json_Marshal
     fixture.json_Unmarshal crypto.toyBlock fixture.randomBytes fixture.now
     (fixture.opts [])).

(** C9 as stated fails: with the snapshot lost and both sides holding
    a file of the same size, the driver rebuilds the entry inline; the
    store cannot commit, the [Put] returns an error, and [Run] still
    returns nil. *)
Lemma Run_drops_rebuild_error :
  compare (fixture.opts []) "a.txt"
    (Some (local.metaOf "a.txt" (local.File [1; 2; 3] 5)))
    (Some (local.metaOf "a.txt" (local.File [9; 9; 9] 7))) None = OpIgnore
  /\ fst (rebuildIndexPut fixture.json_Marshal fixture.now "a.txt"
            (local.metaOf "a.txt" (local.File [1; 2; 3] 5))
            (local.metaOf "a.txt" (local.File [9; 9; 9] 7))
            fixture.lostSnapshotWorld)
     = Some (ErrNew "no space left on device")
  /\ runFixture [] None fixture.lostSnapshotWorld
     = (None, fixture.lostSnapshotWorld).
Proof. repeat split; vm_compute; reflexivity. Qed.

Lemma fixture_json_roundtrip (s : database.FileState) (raw : fixture.Raw) :
  fixture.json_Marshal s = Ok raw -> fixture.json_Unmarshal raw = Ok s.
Proof. intros H. inversion H; subst. reflexivity. Qed.

Abbreviation taskFixture :=
  (processTask fixture.localFS fixture.localFS fixture.json_Marshal
     crypto.toyBlock fixture.randomBytes fixture.now
     (fixture.opts fixture.key32)).

Lemma transfer_records_local_hash_witness :
  exists st c mt,
    database.Get fixture.json_Unmarshal "a.txt"
      (wDB (snd (taskFixture uploadTask fixture.freshUploadWorld)))
      = Ok (Some st)
    /\ local.disk (wLocal (snd (taskFixture uploadTask fixture.freshUploadWorld)))
         !! "a.txt" = Some (local.File c mt)
    /\ database.LocalHash st = fixture.md5hex c.
Proof.
  apply (transfer_records_local_hash fixture.md5hex fixture.localFS
           fixture.json_Marshal fixture.json_Unmarshal crypto.toyBlock
           fixture.randomBytes fixture.now (fixture.opts fixture.key32)
           fixture_json_roundtrip uploadTask fixture.freshUploadWorld).
  - left. split; reflexivity.
  - vm_compute. reflexivity.
Defined.

Abbreviation taskPlain :=
  (processTask fixture.localFS fixture.localFS fixture.json_Marshal
     crypto.toyBlock fixture.randomBytes fixture.now (fixture.opts [])).

Lemma delete_task_order_witness :
  (wDB trackedWorld = wDB trackedWorld
   /\ processTask fixture.localFS fixture.readOnlyFS fixture.json_Marshal
        crypto.toyBlock fixture.randomBytes fixture.now (fixture.opts [])
        deleteRemoteTask trackedWorld
      = (Fail fixture.EROFS, trackedWorld)
   /\ bbolt.bucket
        (wDB (snd (processTask fixture.localFS fixture.readOnlyFS
                     fixture.json_Marshal crypto.toyBlock fixture.randomBytes
                     fixture.now (fixture.opts []) deleteRemoteTask
                     trackedWorld))) !! "a.txt"
      = bbolt.bucket (wDB trackedWorld) !! "a.txt")
  /\ (bbolt.bucket (wDB trackedWorld) !! "a.txt" = Some (Some fixture.someState)
      /\ exists w',
           taskPlain deleteRemoteTask trackedWorld = (Ok tt, w')
           /\ bbolt.bucket (wDB w') !! "a.txt" = None
           /\ wRemote w' = fixture.emptyDisk).
Proof.
  split.
  - apply (delete_task_order fixture.localFS fixture.readOnlyFS
             fixture.json_Marshal crypto.toyBlock fixture.randomBytes
             fixture.now (fixture.opts []) deleteRemoteTask trackedWorld
             trackedWorld (Some fixture.EROFS)).
    left. split; reflexivity.
  - split; [reflexivity |].
    destruct (delete_task_order fixture.localFS fixture.localFS
                fixture.json_Marshal crypto.toyBlock fixture.randomBytes
                fixture.now (fixture.opts []) deleteRemoteTask trackedWorld
                (fixture.world fixture.emptyDisk fixture.emptyDisk
                   fixture.trackedDB) None)
      as (_ & _ & Hok & _ & Hcommit).
    { left. split; [reflexivity | vm_compute; reflexivity]. }
    destruct Hcommit as [w' Hw']; [reflexivity | reflexivity |].
    exists w'. split; [exact Hw' |].
    destruct (Hok w' Hw') as (Hgone & _ & _ & Hr).
    split; [exact Hgone | exact Hr].
Defined.

Lemma ListAll_fails_on_corrupt_record_witness :
  (exists err,
      database.ListAll fixture.json_Unmarshal (wDB corruptWorld) = Fail err)
  /\ (forall order,
        exists err, runFixture order None corruptWorld = (Some err, corruptWorld)).
Proof.
  apply (ListAll_fails_on_corrupt_record fixture.localFS fixture.localFS
           fixture.json_Marshal fixture.json_Unmarshal crypto.toyBlock
           fixture.randomBytes fixture.now (fixture.opts []) corruptWorld
           None "b.txt" None (ErrNew "unexpected end of JSON input"));
    reflexivity.
Defined.

Abbreviation runReadOnlyRemote :=
  (Run fixture.localFS fixture.readOnlyFS fixture.json_Marshal
     fixture.json_Unmarshal crypto.toyBlock fixture.randomBytes fixture.now
     (fixture.opts [])).

Lemma Run_reports_scan_and_task_errors_witness :
  0 < MaxWorkers (fixture.opts [])
  /\ exists errs,
       fst (runReadOnlyRemote [] None readOnlyRemoteWorld)
         = Some (ErrList "task(s) failed" errs)
       /\ In fixture.EROFS errs.
Proof.
  assert (Hworkers : 0 < MaxWorkers (fixture.opts [])) by (vm_compute; reflexivity).
  split; [exact Hworkers |].
  destruct (Run_reports_scan_and_task_errors fixture.localFS
              fixture.readOnlyFS fixture.json_Marshal fixture.json_Unmarshal
              crypto.toyBlock fixture.randomBytes fixture.now
              (fixture.opts []) [] None readOnlyRemoteWorld Hworkers)
    as [_ Htasks].
  apply (Htasks
           {[ "a.txt"%string := local.metaOf "a.txt" (local.File [1; 2; 3] 5) ]}
           ∅ ∅
           [{| Op := OpUpload; RelPath := "a.txt"; Reason := "" |}]
           readOnlyRemoteWorld []
           {| Op := OpUpload; RelPath := "a.txt"; Reason := "" |} []
           fixture.EROFS readOnlyRemoteWorld);
    first [exact I | vm_compute; reflexivity].
Defined.

(** ** A lost snapshot *)



(** * Further properties of the code *)

(** ** The diff decider, continued *)

Ltac compare_cases l r b :=
  unfold compare;
  destruct l as [l |], r as [r |], b as [b |]; cbn [isDirOpt];
  repeat match goal with
         | |- context [fs.IsDir ?m] => destruct (fs.IsDir m) eqn:?
         end;
  cbn [orb];
  repeat match goal with
         | |- context [isLocalSameAsBase ?x ?y] =>
             destruct (isLocalSameAsBase x y) eqn:?
         | |- context [isRemoteSameAsBase ?x ?y ?z] =>
             destruct (isRemoteSameAsBase x y z) eqn:?
         | |- context [isSameFileFuzzy ?x ?y ?z] =>
             destruct (isSameFileFuzzy x y z) eqn:?
         end;
  cbn [negb andb].

(** X1: [compare] asks for a deletion on the remote side exactly when
    the local file is gone, a base exists and the remote file (not a
    directory) still matches the base; and for a deletion on the local
    side exactly when the remote file is gone, a base exists and the local
    file (not a directory) still matches the base. *)
Theorem compare_delete_iff (e : EngineOptions) (relPath : string)
    (l r : option fs.FileMeta) (b : option database.FileState) :
  (compare e relPath l r b = OpDeleteRemote
   <-> l = None
       /\ exists rm bs, r = Some rm /\ b = Some bs
            /\ fs.IsDir rm = false
            /\ isRemoteSameAsBase rm bs (encrypted e) = true)
  /\ (compare e relPath l r b = OpDeleteLocal
      <-> r = None
          /\ exists lm bs, l = Some lm /\ b = Some bs
               /\ fs.IsDir lm = false
               /\ isLocalSameAsBase lm bs = true).
Proof.
  compare_cases l r b;
    (split;
     (split;
      [ intros H; try discriminate H;
        (split; [reflexivity | eexists; eexists; repeat split; eassumption])
      | intros (Hn & x & y & Hx & Hy & Hd & Hs);
        try discriminate Hn; try discriminate Hx; try discriminate Hy;
        try (injection Hx as <-); try (injection Hy as <-);
        try congruence ])).
Qed.

(** X2: [compare] reports a conflict exactly when both sides hold a
    file (neither a directory) and either there is no base and the sizes
    do not match, or there is a base and both sides differ from it. *)
Theorem compare_conflict_iff (e : EngineOptions) (relPath : string)
    (l r : option fs.FileMeta) (b : option database.FileState) :
  compare e relPath l r b = OpConflict
  <-> exists lm rm,
        l = Some lm /\ r = Some rm
        /\ fs.IsDir lm = false /\ fs.IsDir rm = false
        /\ match b with
           | None => isSameFileFuzzy e lm rm = false
           | Some bs =>
               isLocalSameAsBase lm bs = false
               /\ isRemoteSameAsBase rm bs (encrypted e) = false
           end.
Proof.
  compare_cases l r b;
    (split;
     [ intros H; try discriminate H;
       eexists; eexists; repeat split; eassumption
     | intros (x & y & Hx & Hy & Hdx & Hdy & Hs);
       try discriminate Hx; try discriminate Hy;
       try (injection Hx as <-); try (injection Hy as <-);
       try (lazymatch type of Hs with _ /\ _ => destruct Hs end);
       congruence ]).
Qed.

(** X3: the answer of [compare] depends on the remote side only
    through its size, its directory flag and its remote hash; in
    particular the remote modification time is never looked at. *)
Theorem compare_remote_fields (e : EngineOptions) (relPath : string)
    (l : option fs.FileMeta) (r r' : fs.FileMeta)
    (b : option database.FileState) :
  fs.Size r = fs.Size r' ->
  fs.IsDir r = fs.IsDir r' ->
  fs.RemoteHash r = fs.RemoteHash r' ->
  compare e relPath l (Some r) b = compare e relPath l (Some r') b.
Proof.
  intros Hsize Hdir Hhash.
  unfold compare, isSameFileFuzzy, isRemoteSameAsBase. cbn [isDirOpt].
  rewrite Hsize, Hdir, Hhash. reflexivity.
Qed.

Lemma compare_remote_fields_witness :
  compare (fixture.opts fixture.key32) "a.txt" (Some sampleLocal)
    (Some sampleRemote) (Some sampleBase)
  = compare (fixture.opts fixture.key32) "a.txt" (Some sampleLocal)
      (Some {| fs.RelPath := "a.txt"; fs.Size := 116;
               fs.ModTime := time.Unix 1800000000 0; fs.IsDir := false;
               fs.Hash := "";
               fs.RemoteHash := "9e107d9d372bb6826bd81d3542a419d6" |})
      (Some sampleBase).
Proof.
  apply (compare_remote_fields (fixture.opts fixture.key32) "a.txt"
           (Some sampleLocal) sampleRemote); reflexivity.
Defined.

(** X4: the remote-versus-base predicate compares the remote hashes
    when both are present; otherwise it holds exactly when the remote
    size is the recorded plaintext size, plus 16 when encryption is on.
    Sizes are non-negative [int64] byte counts. *)
Theorem isRemoteSameAsBase_exact (r : fs.FileMeta) (b : database.FileState)
    (enc : bool) :
  0 <= database.FileSize b <= Int64.max ->
  0 <= fs.Size r <= Int64.max ->
  isRemoteSameAsBase r b enc =
    if nonEmpty (fs.RemoteHash r) && nonEmpty (database.RemoteHash b)
    then String.eqb (fs.RemoteHash r) (database.RemoteHash b)
    else fs.Size r =? database.FileSize b + (if enc then 16 else 0).
Proof.
  intros Hb Hr. unfold isRemoteSameAsBase.
  destruct (nonEmpty (fs.RemoteHash r) && nonEmpty (database.RemoteHash b));
    [reflexivity |].
  destruct enc.
  - apply add_overhead_exact; assumption.
  - rewrite Z.add_0_r. reflexivity.
Qed.

Lemma isRemoteSameAsBase_exact_witness :
  isRemoteSameAsBase sampleRemote sampleBase true = true.
Proof.
  rewrite (isRemoteSameAsBase_exact sampleRemote sampleBase true);
    [reflexivity | vm_compute; split; discriminate ..].
Defined.

(** A snapshot entry that records a file's size and modification time
    compares as unchanged against that file, as long as the time fits
    in [int64] nanoseconds (years 1678 to 2262). *)
Lemma recorded_local_is_same (l : fs.FileMeta) (st : database.FileState) :
  Int64.inRange (fs.ModTime l) ->
  database.FileSize st = fs.Size l ->
  database.ModTime st = time.UnixNano (fs.ModTime l) ->
  database.LocalHash st = fs.Hash l \/ fs.Hash l = ""%string ->
  isLocalSameAsBase l st = true.
Proof.
  intros Hrange Hsize Htime Hhash. unfold isLocalSameAsBase.
  destruct (nonEmpty (fs.Hash l) && nonEmpty (database.LocalHash st)) eqn:Hne.
  - destruct Hhash as [Heq | Hempty].
    + rewrite Heq. apply String.eqb_refl.
    + rewrite Hempty in Hne. discriminate Hne.
  - rewrite Hsize, Z.eqb_refl. cbn [negb].
    rewrite Htime. unfold time.UnixNano. rewrite wrap_in_range by assumption.
    unfold time.Sub, time.Unix.
    replace (fs.ModTime l - (0 * time.Second + fs.ModTime l)) with 0 by lia.
    reflexivity.
Qed.



(** ** What the steps of the engine leave alone *)

Section Frames.
Context {SL SR Raw : Type}.
Variable LocalFS : fs.FileSystem SL.
Variable RemoteFS : fs.FileSystem SR.
Variable json_Marshal : database.FileState -> result Raw.
Variable json_Unmarshal : Raw -> result database.FileState.
Variable aesBlock : list Z -> list Z -> list Z.
Variable rand_Reader : io.Reader.
Variable now : time.Time.
Variable e : EngineOptions.

Abbreviation World := (@World SL SR Raw).
Abbreviation doUploadE :=
  (doUpload LocalFS RemoteFS json_Marshal aesBlock rand_Reader now e).
Abbreviation doDownloadE :=
  (doDownload LocalFS RemoteFS json_Marshal aesBlock now e).
Abbreviation resolveConflictE :=
  (resolveConflict LocalFS RemoteFS json_Marshal aesBlock rand_Reader now e).
Abbreviation processTaskE :=
  (processTask LocalFS RemoteFS json_Marshal aesBlock rand_Reader now e).

Lemma preserves_bind {A B C} (f : World -> C) (m : Act A) (k : A -> Act B) :
  preserves f m -> (forall a, preserves f (k a)) -> preserves f (bind m k).
Proof.
  intros Hm Hk w. unfold bind. specialize (Hm w).
  destruct (m w) as [[a | err] w1]; cbn [snd] in *.
  - rewrite (Hk a w1). exact Hm.
  - exact Hm.
Qed.

Lemma preserves_fail {A B} (f : World -> B) (m : Act A) :
  preserves f m -> failKeeps f m.
Proof. intros Hm w err w' Hrun. specialize (Hm w). rewrite Hrun in Hm. exact Hm. Qed.

Lemma failKeeps_bind {A B C} (f : World -> C) (m : Act A) (k : A -> Act B) :
  preserves f m -> (forall a, failKeeps f (k a)) -> failKeeps f (bind m k).
Proof.
  intros Hm Hk w err w'. unfold bind. specialize (Hm w).
  destruct (m w) as [[a | err1] w1]; cbn [snd] in Hm; intros Hrun.
  - rewrite <- Hm. exact (Hk a w1 err w' Hrun).
  - inversion Hrun; subst. exact Hm.
Qed.

Lemma preserves_lift {A B} (f : World -> B) (r : result A) :
  preserves f (lift r).
Proof. intros w. reflexivity. Qed.

Lemma preserves_ret {A B} (f : World -> B) (a : A) : preserves f (ret a).
Proof. intros w. reflexivity. Qed.

Lemma preserves_readLocal {A B} (f : World -> B) (g : SL -> result A) :
  preserves f (readLocal g).
Proof. intros w. reflexivity. Qed.

Lemma preserves_readRemote {A B} (f : World -> B) (g : SR -> result A) :
  preserves f (readRemote g).
Proof. intros w. reflexivity. Qed.

Lemma preserves_wrapAct {A B} (f : World -> B) (msg : string) (m : Act A) :
  preserves f m -> preserves f (wrapAct msg m).
Proof.
  intros Hm w. unfold wrapAct. specialize (Hm w).
  destruct (m w) as [r w1]. exact Hm.
Qed.

Lemma failKeeps_wrapAct {A B} (f : World -> B) (msg : string) (m : Act A) :
  failKeeps f m -> failKeeps f (wrapAct msg m).
Proof.
  intros Hm w err w'. unfold wrapAct. specialize (Hm w).
  destruct (m w) as [[a | err1] w1]; cbn [wrapErr]; intros Hrun;
    inversion Hrun; subst.
  eapply Hm. reflexivity.
Qed.

Lemma preserves_errAct {B} (f : World -> B)
    (g : World -> option error * World) :
  preserves f g -> preserves f (errAct g).
Proof.
  intros Hg w. unfold errAct. specialize (Hg w).
  destruct (g w) as [o w1]. exact Hg.
Qed.

Lemma onRemote_preserves_db {A} (g : SR -> A * SR) :
  preserves wDB (onRemote (SL := SL) (Raw := Raw) g).
Proof. intros w. unfold onRemote. destruct (g (wRemote w)). reflexivity. Qed.

Lemma onRemote_preserves_local {A} (g : SR -> A * SR) :
  preserves wLocal (onRemote (SL := SL) (Raw := Raw) g).
Proof. intros w. unfold onRemote. destruct (g (wRemote w)). reflexivity. Qed.

Lemma onLocal_preserves_db {A} (g : SL -> A * SL) :
  preserves wDB (onLocal (SR := SR) (Raw := Raw) g).
Proof. intros w. unfold onLocal. destruct (g (wLocal w)). reflexivity. Qed.

Lemma onLocal_preserves_remote {A} (g : SL -> A * SL) :
  preserves wRemote (onLocal (SR := SR) (Raw := Raw) g).
Proof. intros w. unfold onLocal. destruct (g (wLocal w)). reflexivity. Qed.

Lemma onDB_preserves_local {A} (g : bbolt.DB Raw -> A * bbolt.DB Raw) :
  preserves wLocal (onDB (SL := SL) (SR := SR) g).
Proof. intros w. unfold onDB. destruct (g (wDB w)). reflexivity. Qed.

Lemma onDB_preserves_remote {A} (g : bbolt.DB Raw -> A * bbolt.DB Raw) :
  preserves wRemote (onDB (SL := SL) (SR := SR) g).
Proof. intros w. unfold onDB. destruct (g (wDB w)). reflexivity. Qed.

Lemma Put_fail_keeps_db (st : database.FileState) :
  failKeeps wDB
    (errAct (onDB (SL := SL) (SR := SR) (database.Put json_Marshal now st))).
Proof.
  intros w err w'. unfold errAct, onDB, database.Put.
  destruct (json_Marshal _) as [data | merr].
  - destruct (bbolt.Update _ (wDB w)) as [[uerr |] d'] eqn:Hupd;
      cbn [toResult]; intros H; inversion H; subst. cbn [wDB].
    exact (Update_fail_unchanged _ _ _ _ Hupd).
  - cbn [toResult]. intros H; inversion H; subst. reflexivity.
Qed.

Lemma Delete_fail_keeps_db (p : string) :
  failKeeps wDB
    (errAct (onDB (SL := SL) (SR := SR) (database.Delete (Raw := Raw) p))).
Proof.
  intros w err w'. unfold errAct, onDB, database.Delete.
  destruct (bbolt.Update _ (wDB w)) as [[uerr |] d'] eqn:Hupd;
    cbn [toResult]; intros H; inversion H; subst. cbn [wDB].
  exact (Update_fail_unchanged _ _ _ _ Hupd).
Qed.

Create HintDb frames discriminated.
Hint Resolve preserves_lift preserves_ret preserves_readLocal
  preserves_readRemote preserves_wrapAct preserves_errAct
  onRemote_preserves_db onRemote_preserves_local onLocal_preserves_db
  onLocal_preserves_remote onDB_preserves_local onDB_preserves_remote
  failKeeps_wrapAct Put_fail_keeps_db Delete_fail_keeps_db : frames.

Ltac frame_steps :=
  repeat first
    [ apply preserves_bind; [| intros ?]
    | apply failKeeps_bind; [| intros ?]
    | solve [auto with frames]
    | match goal with
      | |- preserves _ (if ?c then _ else _) => destruct c
      | |- failKeeps _ (if ?c then _ else _) => destruct c
      end ].

Lemma doUpload_fail_keeps_db (p : string) : failKeeps wDB (doUploadE p).
Proof. unfold doUpload. frame_steps. Qed.

Lemma doDownload_fail_keeps_db (p : string) : failKeeps wDB (doDownloadE p).
Proof. unfold doDownload. frame_steps. Qed.

(** X6: whatever the task, when it fails the snapshot store is exactly
    as it was before the task started: no entry is written or removed by
    a failed transfer, delete or conflict resolution. *)
Theorem failed_task_keeps_snapshot (t : Task) (w w' : World) (err : error) :
  processTaskE t w = (Fail err, w') -> wDB w' = wDB w.
Proof.
  revert w err w'. change (failKeeps wDB (processTaskE t)).
  unfold processTask, resolveConflict.
  destruct (Op t); [| | | | | destruct (Strategy e)];
    try apply doUpload_fail_keeps_db; try apply doDownload_fail_keeps_db;
    frame_steps;
    try apply doUpload_fail_keeps_db; try apply doDownload_fail_keeps_db.
  intros w err w' H. discriminate H.
Qed.

(** X7: an upload or a remote delete never changes the local tree, and
    a download or a local delete never changes the remote tree, whether
    the task succeeds or fails. *)
Theorem task_touches_one_side (t : Task) (w : World) :
  match Op t with
  | OpUpload | OpDeleteRemote => wLocal (snd (processTaskE t w)) = wLocal w
  | OpDownload | OpDeleteLocal => wRemote (snd (processTaskE t w)) = wRemote w
  | OpIgnore | OpConflict => True
  end.
Proof.
  unfold processTask.
  destruct (Op t); try exact I; revert w;
    match goal with
    | |- forall w, ?f (snd (?m w)) = ?f w => change (preserves f m)
    end;
    unfold doUpload, doDownload; frame_steps.
Qed.

End Frames.

(** ** The reconciliation driver *)

Section Driver.
Context {SL SR Raw : Type}.
Variable LocalFS : fs.FileSystem SL.
Variable RemoteFS : fs.FileSystem SR.
Variable json_Marshal : database.FileState -> result Raw.
Variable json_Unmarshal : Raw -> result database.FileState.
Variable aesBlock : list Z -> list Z -> list Z.
Variable rand_Reader : io.Reader.
Variable now : time.Time.
Variable e : EngineOptions.

Abbreviation World := (@World SL SR Raw).
Abbreviation planE := (plan (SL := SL) (SR := SR) json_Marshal now e).
Abbreviation drainE :=
  (drain LocalFS RemoteFS json_Marshal aesBlock rand_Reader now e).
Abbreviation scanAllE := (scanAll LocalFS RemoteFS json_Unmarshal).
Abbreviation RunE :=
  (Run LocalFS RemoteFS json_Marshal json_Unmarshal aesBlock rand_Reader
     now e).

Lemma omap_taskFor_paths (lm rm : gmap string fs.FileMeta)
    (bm : gmap string database.FileState) (paths : list string) :
  NoDup paths ->
  NoDup (map RelPath (omap (taskFor e lm rm bm) paths))
  /\ forall t, In t (omap (taskFor e lm rm bm) paths) -> In (RelPath t) paths.
Proof.
  induction 1 as [| p rest Hnotin Hnd [IHnd IHin]]; cbn [omap list_omap].
  - split; [constructor | intros t []].
  - destruct (taskFor e lm rm bm p) as [t0 |] eqn:Ht0.
    + destruct (taskFor_Some e _ _ _ _ _ Ht0) as (Hp & _ & _).
      split.
      * cbn [map]. apply NoDup_cons. split; [| exact IHnd].
        rewrite Hp. intros Hin. apply Hnotin.
        apply list_elem_of_In in Hin. apply list_elem_of_In.
        apply in_map_iff in Hin. destruct Hin as (t & Heq & Hin).
        rewrite <- Heq. apply IHin. exact Hin.
      * intros t [<- | Hin]; [left; symmetry; exact Hp | right; auto].
    + split; [exact IHnd | intros t Hin; right; auto].
Qed.

(** X8: the task queue holds exactly one task for every path on which
    [compare] does not say Ignore, and nothing else: no two tasks share a
    path, no queued task has operation Ignore, and planning (with its
    inline index rebuilds) changes neither file tree. *)
Theorem plan_one_task_per_path (lm rm : gmap string fs.FileMeta)
    (bm : gmap string database.FileState) (w : World) :
  let paths := elements (dom lm ∪ dom rm ∪ dom bm) in
  let tasks := fst (planE paths lm rm bm [] w) in
  NoDup (map RelPath tasks)
  /\ (forall t, In t tasks ->
        Op t <> OpIgnore
        /\ Op t = compare e (RelPath t) (lm !! RelPath t) (rm !! RelPath t)
                    (bm !! RelPath t))
  /\ (forall p,
        compare e p (lm !! p) (rm !! p) (bm !! p) <> OpIgnore ->
        exists t, In t tasks /\ RelPath t = p)
  /\ wLocal (snd (planE paths lm rm bm [] w)) = wLocal w
  /\ wRemote (snd (planE paths lm rm bm [] w)) = wRemote w.
Proof.
  intros paths tasks.
  destruct (plan_acc json_Marshal now e paths lm rm bm [] w) as (Ht & Hl & Hr).
  cbn [app] in Ht. fold tasks in Ht.
  assert (Hnd : NoDup paths) by apply NoDup_elements.
  destruct (omap_taskFor_paths lm rm bm paths Hnd) as [Hnd' Hin'].
  rewrite Ht. repeat split; try assumption.
  - apply list_elem_of_In, list_elem_of_omap in H.
    destruct H as (p & _ & Hp).
    destruct (taskFor_Some e _ _ _ _ _ Hp) as (_ & _ & Hne). exact Hne.
  - apply list_elem_of_In, list_elem_of_omap in H.
    destruct H as (p & _ & Hp).
    destruct (taskFor_Some e _ _ _ _ _ Hp) as (Hpath & Hop & _).
    rewrite Hpath. exact Hop.
  - intros p Hne.
    assert (Hin : p ∈ paths).
    { apply elem_of_elements.
      destruct (lm !! p) as [l |] eqn:Hlm;
        [apply elem_of_union_l, elem_of_union_l, elem_of_dom; eauto |].
      destruct (rm !! p) as [r |] eqn:Hrm;
        [apply elem_of_union_l, elem_of_union_r, elem_of_dom; eauto |].
      destruct (bm !! p) as [b |] eqn:Hbm;
        [apply elem_of_union_r, elem_of_dom; eauto |].
      exfalso. apply Hne. reflexivity. }
    exists {| Op := compare e p (lm !! p) (rm !! p) (bm !! p);
              RelPath := p; Reason := "" |}.
    split; [| reflexivity].
    apply list_elem_of_In, list_elem_of_omap. exists p. split; [exact Hin |].
    unfold taskFor.
    destruct (OpType_eqb _ OpIgnore) eqn:Hop; [| reflexivity].
    exfalso. apply Hne.
    destruct (compare e p (lm !! p) (rm !! p) (bm !! p)); try discriminate Hop.
    reflexivity.
Qed.
Lemma plan_quiet (paths : list string) (lm rm : gmap string fs.FileMeta)
    (bm : gmap string database.FileState) (acc : list Task) (w : World) :
  (forall p, compare e p (lm !! p) (rm !! p) (bm !! p) = OpIgnore) ->
  (forall p, is_Some (lm !! p) -> is_Some (rm !! p) -> is_Some (bm !! p)) ->
  planE paths lm rm bm acc w = (acc, w).
Proof.
  intros Hign Hbase. induction paths as [| p rest IH]; [reflexivity |].
  cbn [plan]. rewrite (Hign p). cbn [OpType_eqb negb].
  specialize (Hbase p).
  destruct (bm !! p) as [b |], (lm !! p) as [l |], (rm !! p) as [r |];
    try exact IH.
  destruct Hbase as [b Hb]; eauto. discriminate Hb.
Qed.

(** X9: when the three scans succeed, every path compares as Ignore,
    and every path present on both sides has a snapshot entry, a cycle
    changes nothing at all and returns nil. *)
Theorem Run_quiescent (order : list Scan) (ctx : Context) (w : World)
    (lm rm : gmap string fs.FileMeta) (bm : gmap string database.FileState) :
  scanAllE order w = Ok (lm, rm, bm) ->
  (forall p, compare e p (lm !! p) (rm !! p) (bm !! p) = OpIgnore) ->
  (forall p, is_Some (lm !! p) -> is_Some (rm !! p) -> is_Some (bm !! p)) ->
  RunE order ctx w = (None, w).
Proof.
  intros Hscan Hign Hbase. unfold Run. rewrite Hscan.
  rewrite (plan_quiet _ lm rm bm [] w Hign Hbase). reflexivity.
Qed.

Lemma drain_cancelled (tasks : list Task) (w : World) :
  drainE (Some O) tasks w = ([], w).
Proof. destruct tasks; reflexivity. Qed.

(** X10: a cycle whose context is already cancelled when the workers
    start runs no task: whatever was queued, it returns nil and both file
    trees are as they were. *)
Theorem Run_cancelled (order : list Scan) (w : World)
    (lm rm : gmap string fs.FileMeta) (bm : gmap string database.FileState) :
  scanAllE order w = Ok (lm, rm, bm) ->
  fst (RunE order (Some O) w) = None
  /\ wLocal (snd (RunE order (Some O) w)) = wLocal w
  /\ wRemote (snd (RunE order (Some O) w)) = wRemote w.
Proof.
  intros Hscan. unfold Run. rewrite Hscan.
  destruct (plan_acc json_Marshal now e
              (elements (dom lm ∪ dom rm ∪ dom bm)) lm rm bm [] w)
    as (_ & Hl & Hr).
  destruct (planE _ lm rm bm [] w) as [tasks w1]. cbn [snd] in Hl, Hr.
  destruct (length tasks =? 0)%nat; [repeat split; assumption |].
  unfold workers. rewrite drain_cancelled.
  destruct (0 <? MaxWorkers e); cbn; repeat split; assumption.
Qed.

(** X11: the entry written by an index rebuild is stable: for a file
    that the scans report with no local hash and a modification time
    within [int64] nanoseconds, the pair that matched by size with no
    base compares as Ignore against the rebuilt entry as well. *)
Theorem rebuild_then_ignore (path : string) (l r : fs.FileMeta)
    (w w' : World) :
  (forall s raw, json_Marshal s = Ok raw -> json_Unmarshal raw = Ok s) ->
  rebuildIndexPut json_Marshal now path l r w = (None, w') ->
  compare e path (Some l) (Some r) None = OpIgnore ->
  fs.Hash l = ""%string ->
  Int64.inRange (fs.ModTime l) ->
  exists st,
    database.Get json_Unmarshal path (wDB w') = Ok (Some st)
    /\ compare e path (Some l) (Some r) (Some st) = OpIgnore.
Proof.
  intros Hrt Hput Hfuzzy Hhash Hrange.
  unfold rebuildIndexPut, onDB in Hput.
  destruct (database.Put _ _ _ (wDB w)) as [[err |] d'] eqn:Hp;
    inversion Hput; subst w'; clear Hput. cbn [wDB].
  pose proof (Put_then_Get _ _ _ _ _ _ Hrt Hp) as Hget.
  cbn [database.RelPath] in Hget.
  eexists. split; [exact Hget |].
  unfold compare in *. cbn [isDirOpt] in *.
  destruct (fs.IsDir l || fs.IsDir r); [reflexivity |].
  destruct (isSameFileFuzzy e l r) eqn:Hsize; [| discriminate Hfuzzy].
  rewrite recorded_local_is_same; cbn; auto.
  assert (Hremote : forall st0,
             database.RemoteHash st0 = fs.Hash l ->
             database.FileSize st0 = fs.Size l ->
             isRemoteSameAsBase r st0 (encrypted e) = true).
  { intros st0 Hh Hs. unfold isRemoteSameAsBase. rewrite Hh, Hhash, Hs.
    replace (nonEmpty (fs.RemoteHash r) && nonEmpty "") with false
      by (destruct (nonEmpty (fs.RemoteHash r)); reflexivity).
    exact Hsize. }
  rewrite Hremote; reflexivity.
Qed.
End Driver.
(** ** The snapshot store, continued *)

Section StoreMore.
Context {Raw : Type}.
Variable json_Marshal : database.FileState -> result Raw.
Variable json_Unmarshal : Raw -> result database.FileState.

Lemma Update_ok (fn : gmap string Raw -> result (gmap string Raw))
    (d d' : bbolt.DB Raw) :
  bbolt.Update fn d = (None, d') ->
  bbolt.opened d = true
  /\ bbolt.opened d' = true
  /\ fn (bbolt.bucket d) = Ok (bbolt.bucket d').
Proof.
  unfold bbolt.Update.
  destruct (bbolt.opened d) eqn:Hopen; [| discriminate].
  destruct (fn (bbolt.bucket d)) as [b' | err]; [| discriminate].
  destruct (bbolt.commitFault d); [discriminate |].
  intros H. inversion H; subst. cbn. repeat split.
Qed.

(** X12: a successful [Put] is read back by [Get] under the record's
    path, with [LastSyncTime] replaced by the time of the call in
    nanoseconds (whatever the caller had set) and every other field as
    given; the entries of all other paths are untouched. *)
Theorem Put_Get_roundtrip (now : time.Time) (st : database.FileState)
    (d d' : bbolt.DB Raw) :
  (forall s raw, json_Marshal s = Ok raw -> json_Unmarshal raw = Ok s) ->
  database.Put json_Marshal now st d = (None, d') ->
  database.Get json_Unmarshal (database.RelPath st) d'
    = Ok (Some {| database.RelPath := database.RelPath st;
                  database.FileSize := database.FileSize st;
                  database.ModTime := database.ModTime st;
                  database.LocalHash := database.LocalHash st;
                  database.RemoteHash := database.RemoteHash st;
                  database.IsDir := database.IsDir st;
                  database.LastSyncTime := time.UnixNano now |})
  /\ forall k, k <> database.RelPath st ->
       bbolt.bucket d' !! k = bbolt.bucket d !! k.
Proof.
  intros Hrt Hput. split.
  - exact (Put_then_Get _ _ _ _ _ _ Hrt Hput).
  - intros k Hk. unfold database.Put in Hput.
    destruct (json_Marshal _) as [data | err]; [| discriminate].
    destruct (Update_ok _ _ _ Hput) as (_ & _ & Hfn).
    unfold bbolt.Put in Hfn. cbn [database.setLastSyncTime database.RelPath] in Hfn.
    destruct (String.length (database.RelPath st) =? 0)%nat; [discriminate |].
    destruct (bbolt.MaxKeySize <? _); [discriminate |].
    injection Hfn as Hb. rewrite <- Hb.
    apply lookup_insert_ne. congruence.
Qed.

(** X13: a successful [Delete] removes the entry of its path and no
    other, and deleting the same path again succeeds and changes
    nothing. *)
Theorem Delete_removes_entry (p : string) (d d' : bbolt.DB Raw) :
  database.Delete p d = (None, d') ->
  database.Get json_Unmarshal p d' = Ok None
  /\ (forall k, k <> p -> bbolt.bucket d' !! k = bbolt.bucket d !! k)
  /\ database.Delete p d' = (None, d').
Proof.
  intros Hdel.
  assert (Hopen : bbolt.opened d = true /\ bbolt.commitFault d = None
                  /\ d' = {| bbolt.opened := true;
                             bbolt.bucket := delete p (bbolt.bucket d);
                             bbolt.commitFault := None |}).
  { revert Hdel. unfold database.Delete, bbolt.Update, bbolt.Delete.
    destruct (bbolt.opened d); [| discriminate].
    destruct (bbolt.commitFault d); [discriminate |].
    intros H. inversion H. repeat split. }
  destruct Hopen as (Hopen & Hfault & ->). repeat split.
  - unfold database.Get, bbolt.View. cbn [bbolt.opened bbolt.bucket].
    rewrite lookup_delete_eq. reflexivity.
  - intros k Hk. cbn [bbolt.bucket]. apply lookup_delete_ne. congruence.
  - unfold database.Delete, bbolt.Update, bbolt.Delete.
    cbn [bbolt.opened bbolt.bucket bbolt.commitFault].
    rewrite (delete_id (delete p (bbolt.bucket d)) p)
      by apply lookup_delete_eq.
    reflexivity.
Qed.

(** X14: on an open store, [Get] of a path without entry returns no
    record and no error, and [Get] of a path whose record fails to
    deserialise returns that error (as long as its text is not the
    "not found" sentinel). *)
Theorem Get_absent_or_damaged (p : string) (d : bbolt.DB Raw) :
  bbolt.opened d = true ->
  (bbolt.bucket d !! p = None -> database.Get json_Unmarshal p d = Ok None)
  /\ (forall v err,
        bbolt.bucket d !! p = Some v ->
        json_Unmarshal v = Fail err ->
        Error err <> "not found"%string ->
        database.Get json_Unmarshal p d = Fail err).
Proof.
  intros Hopen. unfold database.Get, bbolt.View. rewrite Hopen. split.
  - intros Hnone. rewrite Hnone. reflexivity.
  - intros v err Hv Hbad Htext. rewrite Hv, Hbad.
    apply String.eqb_neq in Htext. rewrite Htext. reflexivity.
Qed.

Lemma forEach_lookup (kvs : list (string * Raw))
    (acc m : gmap string database.FileState) :
  database.forEach json_Unmarshal kvs acc = Ok m ->
  NoDup (kvs.*1) ->
  forall k,
    (forall v, (k, v) ∈ kvs ->
       exists st, json_Unmarshal v = Ok st /\ m !! k = Some st)
    /\ (k ∉ kvs.*1 -> m !! k = acc !! k).
Proof.
  revert acc. induction kvs as [| [k0 v0] rest IH]; intros acc Hrun Hnd k.
  - cbn in Hrun. inversion Hrun; subst. split.
    + intros v Hin. inversion Hin.
    + reflexivity.
  - cbn [database.forEach] in Hrun.
    destruct (json_Unmarshal v0) as [st0 |] eqn:Hv0; [| discriminate].
    cbn [fmap list_fmap fst] in Hnd. apply NoDup_cons in Hnd as [Hk0 Hnd].
    specialize (IH _ Hrun Hnd). split.
    + intros v Hin. apply elem_of_cons in Hin as [Heq | Hin].
      * inversion Heq; subst. exists st0. split; [exact Hv0 |].
        destruct (IH k0) as [_ Hout]. rewrite (Hout Hk0).
        apply lookup_insert_eq.
      * destruct (IH k) as [Hfound _]. exact (Hfound v Hin).
    + intros Hout. cbn [fmap list_fmap fst] in Hout.
      apply not_elem_of_cons in Hout as [Hne Hout].
      destruct (IH k) as [_ Hacc]. rewrite (Hacc Hout).
      apply lookup_insert_ne. congruence.
Qed.

(** X15: when [ListAll] succeeds, its map agrees with [Get] on every
    path: a path is in the map with the record that [Get] returns for
    it, and absent from the map exactly when [Get] finds no entry. *)
Theorem ListAll_agrees_with_Get (d : bbolt.DB Raw)
    (m : gmap string database.FileState) :
  database.ListAll json_Unmarshal d = Ok m ->
  forall k, database.Get json_Unmarshal k d = Ok (m !! k).
Proof.
  unfold database.ListAll, database.Get, bbolt.View.
  destruct (bbolt.opened d); [| discriminate].
  intros Hrun k.
  pose proof (forEach_lookup _ _ _ Hrun (NoDup_fst_map_to_list _) k)
    as [Hfound Hout].
  destruct (bbolt.bucket d !! k) as [v |] eqn:Hk.
  - destruct (Hfound v) as (st & Hv & Hm).
    { apply elem_of_map_to_list. exact Hk. }
    rewrite Hv, Hm. reflexivity.
  - rewrite Hout; [rewrite lookup_empty; reflexivity |].
    intros Hin. apply list_elem_of_fmap in Hin as ([k' v'] & Heq & Hin).
    cbn in Heq. subst k'. apply elem_of_map_to_list in Hin. congruence.
Qed.
End StoreMore.
(** ** The local-disk adapter, continued *)

Section LocalMore.
Variable md5hex : list Z -> string.

Lemma mkdirs_keeps (now : time.Time) (dirs : list string)
    (d d' : gmap string local.Node) (k : string) (n : local.Node) :
  local.mkdirs now dirs d = Ok d' ->
  d !! k = Some n -> d' !! k = Some n.
Proof.
  revert d. induction dirs as [| a rest IH]; intros d Hrun Hk.
  - cbn in Hrun. inversion Hrun; subst. exact Hk.
  - cbn [local.mkdirs] in Hrun.
    destruct (d !! a) as [[c m | sz m] |] eqn:Ha; [discriminate | |].
    + exact (IH d Hrun Hk).
    + apply (IH _ Hrun). rewrite lookup_insert_ne; [exact Hk |].
      intros ->. congruence.
Qed.





(** The disk a successful [WriteStream] leaves: the parents created, the
    file in place. *)
Lemma WriteStream_disk (p : string) (stream : io.Reader)
    (modTime : time.Time) (a a' : local.Adapter) (h : string) :
  local.WriteStream md5hex p stream modTime a = (Ok h, a') ->
  exists d1,
    local.os_MkdirAllParent (local.clock a) p (local.disk a) = Ok d1
    /\ local.disk a'
       = <[p := local.File (io.data stream)
                  (if time.IsZero modTime then local.clock a else modTime)]> d1
    /\ h = md5hex (io.data stream).
Proof.
  unfold local.WriteStream.
  destruct (local.os_MkdirAllParent _ p _) as [d1 | err]; [| discriminate].
  unfold local.os_Create.
  destruct (String.eqb p ""); [discriminate |].
  assert (Hins : forall d2 : gmap string local.Node,
             (match io.rerr stream with
              | Some e => (Fail (ErrWrap "write failed" e),
                           local.withDisk a
                             (<[p := local.File (io.data stream) (local.clock a)]> d2))
              | None =>
                  (local.calculateMD5 md5hex p
                     (if negb (time.IsZero modTime)
                      then <[p := local.File (io.data stream) modTime]>
                             (<[p := local.File (io.data stream) (local.clock a)]> d2)
                      else <[p := local.File (io.data stream) (local.clock a)]> d2),
                   local.withDisk a
                     (if negb (time.IsZero modTime)
                      then <[p := local.File (io.data stream) modTime]>
                             (<[p := local.File (io.data stream) (local.clock a)]> d2)
                      else <[p := local.File (io.data stream) (local.clock a)]> d2))
              end) = (Ok h, a') ->
             local.disk a'
             = <[p := local.File (io.data stream)
                        (if time.IsZero modTime then local.clock a else modTime)]> d2
             /\ h = md5hex (io.data stream)).
  { intros d2. destruct (io.rerr stream); [discriminate |].
    unfold local.calculateMD5.
    destruct (time.IsZero modTime); cbn [negb];
      rewrite lookup_insert_eq; intros H; inversion H; subst;
      cbn [local.withDisk local.disk]; split; try reflexivity.
    apply insert_insert_eq. }
  destruct (d1 !! p) as [[c m | sz m] |] eqn:Hp; try discriminate;
    intros Hrun; apply Hins in Hrun as [Hdisk Hh]; exists d1;
    (split; [reflexivity |]); (split; [| exact Hh]);
    rewrite Hdisk; apply insert_insert_eq.
Qed.

(** X16: after a successful [WriteStream], reading the path back gives
    exactly the bytes of the stream; the returned hash is the MD5 of
    those bytes; and [Stat] finds a regular file under the path, with
    their length as its size and that MD5 as its local hash. *)
Theorem WriteStream_roundtrip (p : string) (stream : io.Reader)
    (modTime : time.Time) (a a' : local.Adapter) (h : string) :
  local.WriteStream md5hex p stream modTime a = (Ok h, a') ->
  local.OpenStream p a' = Ok (io.bytesReader (io.data stream))
  /\ h = md5hex (io.data stream)
  /\ exists meta,
       local.Stat md5hex p a' = Ok meta
       /\ fs.RelPath meta = p
       /\ fs.Size meta = Z.of_nat (length (io.data stream))
       /\ fs.IsDir meta = false
       /\ fs.Hash meta = md5hex (io.data stream).
Proof.
  intros Hrun. destruct (WriteStream_disk _ _ _ _ _ _ Hrun)
    as (d1 & _ & Hdisk & Hh).
  unfold local.OpenStream, local.Stat, local.calculateMD5.
  rewrite Hdisk, lookup_insert_eq. split; [reflexivity |].
  split; [exact Hh |]. eexists. split; [reflexivity |]. repeat split.
Qed.


(** X18: when the stream breaks off with a read error after the
    parent directories and the file have been created, [WriteStream]
    returns that error, and the bytes delivered before the error are
    left in the file: a failed write leaves a truncated file behind. *)
Theorem WriteStream_read_error_leaves_partial (p : string)
    (stream : io.Reader) (modTime : time.Time) (a : local.Adapter)
    (d1 d2 : gmap string local.Node) (err : error) :
  local.os_MkdirAllParent (local.clock a) p (local.disk a) = Ok d1 ->
  local.os_Create (local.clock a) p d1 = Ok d2 ->
  io.rerr stream = Some err ->
  fst (local.WriteStream md5hex p stream modTime a)
    = Fail (ErrWrap "write failed" err)
  /\ local.disk (snd (local.WriteStream md5hex p stream modTime a)) !! p
     = Some (local.File (io.data stream) (local.clock a)).
Proof.
  intros Hmk Hcr Herr. unfold local.WriteStream.
  rewrite Hmk, Hcr, Herr. cbn [fst snd local.withDisk local.disk].
  split; [reflexivity | apply lookup_insert_eq].
Qed.


Lemma ListAll_lookup (a : local.Adapter) :
  exists m,
    local.ListAll a = Ok m
    /\ forall k, m !! k = local.metaOf k <$> local.disk a !! k.
Proof.
  eexists. split; [reflexivity |]. intros k. rewrite map_lookup_imap.
  destruct (local.disk a !! k); reflexivity.
Qed.

(** X20: a local scan lists every entry of the tree under its path with
    the entry's size, time and directory flag, and never with a hash;
    hence the local-versus-base predicate on a scanned file never
    compares content hashes: it gives the same answer for any two bases
    with the same size and modification time. *)
Theorem ListAll_has_no_hash (a : local.Adapter) :
  exists m,
    local.ListAll a = Ok m
    /\ (forall k, m !! k = local.metaOf k <$> local.disk a !! k)
    /\ (forall k l, m !! k = Some l ->
          fs.Hash l = ""%string
          /\ forall b b',
               database.FileSize b = database.FileSize b' ->
               database.ModTime b = database.ModTime b' ->
               isLocalSameAsBase l b = isLocalSameAsBase l b').
Proof.
  eexists. split; [reflexivity |].
  assert (Hlook : forall k,
             map_imap (fun k n => Some (local.metaOf k n)) (local.disk a) !! k
             = local.metaOf k <$> local.disk a !! k).
  { intros k. rewrite map_lookup_imap.
    destruct (local.disk a !! k); reflexivity. }
  split; [exact Hlook |].
  intros k l Hl. rewrite Hlook in Hl.
  assert (Hhash : fs.Hash l = ""%string).
  { destruct (local.disk a !! k) as [[c m | sz m] |]; inversion Hl; reflexivity. }
  split; [exact Hhash |].
  intros b b' Hs Ht. unfold isLocalSameAsBase.
  rewrite Hhash, Hs, Ht. reflexivity.
Qed.

(** X21: renaming a regular file onto a different path that is not a
    directory moves it: the new path holds the file with its content and
    modification time, and the old path is gone. *)
Theorem Rename_moves_file (old new : string) (a a' : local.Adapter)
    (c : list Z) (m : time.Time) :
  local.disk a !! old = Some (local.File c m) ->
  old <> new ->
  local.Rename old new a = (None, a') ->
  local.disk a' !! new = Some (local.File c m)
  /\ local.disk a' !! old = None.
Proof.
  intros Hold Hne. unfold local.Rename.
  destruct (local.os_MkdirAllParent _ new _) as [d1 | err] eqn:Hmk;
    [| discriminate].
  unfold local.os_MkdirAllParent in Hmk.
  pose proof (mkdirs_keeps _ _ _ _ _ _ Hmk Hold) as Hold1.
  unfold local.os_Rename. rewrite Hold1.
  destruct (d1 !! new) as [[c' m' | sz' m'] |];
    try discriminate; intros H; inversion H; subst;
    cbn [local.withDisk local.disk];
    (split; [apply lookup_insert_eq |]);
    rewrite lookup_insert_ne by congruence; apply lookup_delete_eq.
Qed.
End LocalMore.
(** ** The stream cipher, continued *)

Section CipherMore.
Variable aesBlock : list Z -> list Z -> list Z.
Hypothesis aesBlock_size :
  forall key blk, length (aesBlock key blk) = crypto.BlockSize.

(** X22: with a valid key, the decrypting reader fails exactly when
    the stream delivers fewer than the 16 bytes of the IV; otherwise it
    yields as many bytes as follow the IV and ends as the source ends.
    Nothing else is checked: there is no integrity test on the body. *)
Theorem NewDecryptReader_strips_iv (src : io.Reader) (key : list Z) :
  crypto.validKey key ->
  match crypto.NewDecryptReader aesBlock src key with
  | Ok c =>
      (16 <= length (io.data src))%nat
      /\ length (io.data c) = (length (io.data src) - 16)%nat
      /\ io.rerr c = io.rerr src
  | Fail _ => (length (io.data src) < 16)%nat
  end.
Proof.
  intros Hkey. unfold crypto.NewDecryptReader.
  rewrite (NewCipher_valid aesBlock key Hkey).
  unfold io.ReadFull, crypto.BlockSize.
  destruct (Nat.leb_spec 16 (length (io.data src))) as [Hge | Hlt].
  - cbn [crypto.StreamReader io.data io.rerr].
    rewrite (XORKeyStream_length aesBlock aesBlock_size), length_skipn.
    repeat split. exact Hge.
  - destruct (io.rerr src); [exact Hlt |].
    destruct (io.data src); exact Hlt.
Qed.

Lemma keystream_extends (blk : list Z -> list Z) (ctr : list Z) (n m : nat) :
  (n <= m)%nat ->
  exists rest,
    crypto.keystream blk ctr m = crypto.keystream blk ctr n ++ rest.
Proof.
  revert ctr m. induction n as [| n IH]; intros ctr m Hle.
  - eexists. reflexivity.
  - destruct m as [| m]; [lia |]. cbn [crypto.keystream].
    destruct (IH (crypto.ctrIncr ctr) m) as [rest Hrest]; [lia |].
    exists rest. rewrite Hrest, app_assoc. reflexivity.
Qed.

Lemma zip_xor_uses_prefix (src ks rest : list Z) :
  (length src <= length ks)%nat ->
  zip_with Z.lxor src (ks ++ rest) = zip_with Z.lxor src ks.
Proof.
  revert ks. induction src as [| x src IH]; intros [| k ks] Hlen;
    cbn in *; try lia; try reflexivity.
  rewrite IH by lia. reflexivity.
Qed.

Lemma zip_xor_take (a b ks : list Z) :
  (length a <= length ks)%nat ->
  firstn (length a) (zip_with Z.lxor (a ++ b) ks) = zip_with Z.lxor a ks.
Proof.
  revert ks. induction a as [| x a IH]; intros [| k ks] Hlen;
    cbn in *; try lia; try reflexivity.
  rewrite IH by lia. reflexivity.
Qed.

(** X23: the cipher works on the stream as it passes: the ciphertext
    of a stream that continues is the ciphertext of its beginning,
    continued.  Byte [i] of the output depends only on the key, the IV
    and byte [i] of the input. *)
Theorem XORKeyStream_prefix (key iv a b : list Z) :
  firstn (length a) (crypto.XORKeyStream (aesBlock key) iv (a ++ b))
  = crypto.XORKeyStream (aesBlock key) iv a.
Proof.
  unfold crypto.XORKeyStream.
  set (n := ((length a + 15) / 16)%nat).
  set (m := ((length (a ++ b) + 15) / 16)%nat).
  assert (Hnm : (n <= m)%nat).
  { unfold n, m. rewrite length_app. apply Nat.Div0.div_le_mono. lia. }
  destruct (keystream_extends (aesBlock key) iv n m Hnm) as [rest Hrest].
  assert (Hcover : (length a <= length (crypto.keystream (aesBlock key) iv n))%nat).
  { rewrite (keystream_length aesBlock aesBlock_size). apply blocks_cover. }
  rewrite Hrest, zip_xor_take.
  - apply zip_xor_uses_prefix. exact Hcover.
  - rewrite length_app. lia.
Qed.
End CipherMore.

Lemma NewDecryptReader_strips_iv_witness :
  match crypto.NewDecryptReader crypto.toyBlock fixture.randomBytes
          fixture.key32 with
  | Ok c =>
      (16 <= 32)%nat /\ length (io.data c) = 16%nat /\ io.rerr c = None
  | Fail _ => (32 < 16)%nat
  end.
Proof.
  apply (NewDecryptReader_strips_iv crypto.toyBlock toyBlock_size
           fixture.randomBytes fixture.key32).
  right; right; reflexivity.
Defined.

Lemma XORKeyStream_prefix_witness :
  firstn 2 (crypto.XORKeyStream (crypto.toyBlock fixture.key32)
              (firstn 16 (io.data fixture.randomBytes)) ([7; 8] ++ [9]))
  = crypto.XORKeyStream (crypto.toyBlock fixture.key32)
      (firstn 16 (io.data fixture.randomBytes)) [7; 8].
Proof.
  exact (XORKeyStream_prefix crypto.toyBlock toyBlock_size fixture.key32
           (firstn 16 (io.data fixture.randomBytes)) [7; 8] [9]).
Defined.
(** ** Transfers and the key *)

Section KeyFacts.
Context {SL SR Raw : Type}.
Variable LocalFS : fs.FileSystem SL.
Variable RemoteFS : fs.FileSystem SR.
Variable json_Marshal : database.FileState -> result Raw.
Variable aesBlock : list Z -> list Z -> list Z.
Variable rand_Reader : io.Reader.
Variable now : time.Time.
Variable e : EngineOptions.

Abbreviation World := (@World SL SR Raw).

Lemma NewCipher_invalid (key : list Z) :
  ~ crypto.validKey key ->
  exists err, crypto.NewCipher aesBlock key = Fail err.
Proof.
  unfold crypto.validKey, crypto.NewCipher. intros Hbad.
  destruct (Nat.eqb_spec (length key) 16) as [H16 | _]; [tauto |].
  destruct (Nat.eqb_spec (length key) 24) as [H24 | _]; [tauto |].
  destruct (Nat.eqb_spec (length key) 32) as [H32 | _]; [tauto |].
  eexists. reflexivity.
Qed.

(** X24: with a key configured whose length is not 16, 24 or 32 bytes,
    no transfer ever happens: every upload and every download fails, and
    neither tree nor the snapshot store is changed. *)
Theorem invalid_key_blocks_transfers (path : string) (w : World) :
  encrypted e = true ->
  ~ crypto.validKey (EncryptKey e) ->
  (isOk (fst (doUpload LocalFS RemoteFS json_Marshal aesBlock rand_Reader
                now e path w)) = false
   /\ snd (doUpload LocalFS RemoteFS json_Marshal aesBlock rand_Reader
             now e path w) = w)
  /\ (isOk (fst (doDownload LocalFS RemoteFS json_Marshal aesBlock
                   now e path w)) = false
      /\ snd (doDownload LocalFS RemoteFS json_Marshal aesBlock
                now e path w) = w).
Proof.
  intros Henc Hbad.
  destruct (NewCipher_invalid _ Hbad) as [err Herr].
  unfold doUpload, doDownload, bind, readLocal, readRemote, lift.
  rewrite Henc.
  unfold crypto.NewEncryptReader, crypto.NewDecryptReader. rewrite Herr.
  cbn [wrapErr].
  destruct (fs.OpenStream LocalFS path (wLocal w)),
    (fs.OpenStream RemoteFS path (wRemote w)); cbn; repeat split.
Qed.
End KeyFacts.

Lemma invalid_key_blocks_transfers_witness :
  (isOk (fst (doUpload fixture.localFS fixture.localFS fixture.json_Marshal
                crypto.toyBlock fixture.randomBytes fixture.now
                (fixture.opts [1; 2; 3]) "a.txt" fixture.freshUploadWorld))
     = false
   /\ snd (doUpload fixture.localFS fixture.localFS fixture.json_Marshal
             crypto.toyBlock fixture.randomBytes fixture.now
             (fixture.opts [1; 2; 3]) "a.txt" fixture.freshUploadWorld)
      = fixture.freshUploadWorld)
  /\ (isOk (fst (doDownload fixture.localFS fixture.localFS
                   fixture.json_Marshal crypto.toyBlock fixture.now
                   (fixture.opts [1; 2; 3]) "a.txt"
                   fixture.freshUploadWorld)) = false
      /\ snd (doDownload fixture.localFS fixture.localFS
                fixture.json_Marshal crypto.toyBlock fixture.now
                (fixture.opts [1; 2; 3]) "a.txt" fixture.freshUploadWorld)
         = fixture.freshUploadWorld).
Proof.
  apply (invalid_key_blocks_transfers fixture.localFS fixture.localFS
           fixture.json_Marshal crypto.toyBlock fixture.randomBytes
           fixture.now (fixture.opts [1; 2; 3]) "a.txt"
           fixture.freshUploadWorld).
  - reflexivity.
  - unfold crypto.validKey. cbn. lia.
Defined.

(** ** After a transfer, on the local-disk adapter *)

Section AfterTransfer.
Context {SR Raw : Type}.
Variable md5hex : list Z -> string.
Variable RemoteFS : fs.FileSystem SR.
Variable json_Marshal : database.FileState -> result Raw.
Variable json_Unmarshal : Raw -> result database.FileState.
Variable aesBlock : list Z -> list Z -> list Z.
Variable rand_Reader : io.Reader.
Variable now : time.Time.
Variable e : EngineOptions.
Hypothesis json_roundtrip :
  forall s raw, json_Marshal s = Ok raw -> json_Unmarshal raw = Ok s.

Abbreviation WorldL := (@World local.Adapter SR Raw).
Abbreviation LocalFS := (local.FS md5hex).

Lemma local_Stat_of_file (p : string) (a : local.Adapter)
    (stat : fs.FileMeta) :
  local.Stat md5hex p a = Ok stat ->
  fs.IsDir stat = false ->
  exists c mt,
    local.disk a !! p = Some (local.File c mt)
    /\ fs.Size stat = Z.of_nat (length c)
    /\ fs.ModTime stat = mt.
Proof.
  unfold local.Stat, local.calculateMD5.
  destruct (local.disk a !! p) as [[c mt | sz mt] |];
    intros H Hdir; inversion H; subst; try discriminate.
  exists c, mt. repeat split.
Qed.

(** The entry a successful transfer leaves, with the file it describes. *)
Lemma transfer_entry (t : Task) (w w' : WorldL) :
  (Op t = OpUpload /\ local.isDirAt (RelPath t) (wLocal w) = false)
  \/ Op t = OpDownload ->
  processTask LocalFS RemoteFS json_Marshal aesBlock rand_Reader now e t w
    = (Ok tt, w') ->
  exists st c mt,
    database.Get json_Unmarshal (RelPath t) (wDB w') = Ok (Some st)
    /\ local.disk (wLocal w') !! RelPath t = Some (local.File c mt)
    /\ database.FileSize st = Z.of_nat (length c)
    /\ database.ModTime st = time.UnixNano mt.
Proof.
  intros [[Hop Hfile] | Hop] Hrun; unfold processTask in Hrun;
    rewrite Hop in Hrun.
  - unfold doUpload, bind, readLocal, lift, wrapAct, errAct in Hrun.
    cbn [fs.OpenStream fs.Stat LocalFS local.FS] in Hrun.
    destruct (local.OpenStream (RelPath t) (wLocal w)) as [reader | ?];
      [| discriminate].
    destruct (if encrypted e then _ else _) as [uploadStream | ?];
      [| discriminate].
    destruct (onRemote _ w) as [[cloudMD5 | ?] w1] eqn:Hwrite;
      [| discriminate].
    destruct (onRemote_keeps_db _ _ _ _ Hwrite) as [Hdb Hloc].
    destruct (local.Stat md5hex (RelPath t) (wLocal w1)) as [stat | ?]
      eqn:Hstat; cbn [wrapErr] in Hrun; [| discriminate].
    rewrite Hloc in Hstat.
    assert (Hnd : fs.IsDir stat = false).
    { revert Hstat Hfile. unfold local.Stat, local.isDirAt, local.calculateMD5.
      destruct (local.disk (wLocal w) !! RelPath t) as [[c mt | sz mt] |];
        intros H1 H2; inversion H1; subst; try discriminate; reflexivity. }
    destruct (local_Stat_of_file _ _ _ Hstat Hnd) as (c & mt & Hdisk & Hsz & Hmt).
    unfold onDB in Hrun.
    destruct (database.Put _ _ _ (wDB w1)) as [[? |] d'] eqn:Hput;
      cbn [toResult] in Hrun; [discriminate |].
    inversion Hrun; subst w'; clear Hrun. cbn [wDB wLocal].
    pose proof (Put_then_Get _ _ _ _ _ _ json_roundtrip Hput) as Hget.
    cbn [database.RelPath] in Hget.
    eexists; exists c, mt. split; [exact Hget |].
    split; [rewrite Hloc; exact Hdisk |].
    cbn [database.setLastSyncTime database.FileSize database.ModTime].
    rewrite Hsz, Hmt. split; reflexivity.
  - unfold doDownload, bind, readRemote, readLocal, lift, wrapAct, errAct
      in Hrun.
    cbn [fs.WriteStream fs.Stat LocalFS local.FS] in Hrun.
    destruct (fs.OpenStream RemoteFS (RelPath t) (wRemote w))
      as [reader | ?]; [| discriminate].
    destruct (if encrypted e then _ else _) as [downStream | ?];
      [| discriminate].
    destruct (fs.Stat RemoteFS (RelPath t) (wRemote w))
      as [remoteMeta | ?]; [| discriminate].
    unfold onLocal in Hrun.
    destruct (local.WriteStream md5hex (RelPath t) downStream
                (fs.ModTime remoteMeta) (wLocal w))
      as [[localMD5 | ?] a'] eqn:Hwrite; [| discriminate].
    destruct (WriteStream_disk _ _ _ _ _ _ _ Hwrite) as (d1 & _ & Hd & _).
    assert (Hdisk : local.disk a' !! RelPath t
                    = Some (local.File (io.data downStream)
                              (if time.IsZero (fs.ModTime remoteMeta)
                               then local.clock (wLocal w)
                               else fs.ModTime remoteMeta)))
      by (rewrite Hd; apply lookup_insert_eq).
    cbn [wLocal] in Hrun. unfold local.Stat, local.calculateMD5 in Hrun.
    rewrite Hdisk in Hrun. cbn [wrapErr] in Hrun.
    unfold onDB in Hrun. cbn [wDB wLocal wRemote] in Hrun.
    destruct (database.Put _ _ _ (wDB w)) as [[? |] d'] eqn:Hput;
      cbn [toResult] in Hrun; [discriminate |].
    inversion Hrun; subst w'; clear Hrun. cbn [wDB wLocal].
    pose proof (Put_then_Get _ _ _ _ _ _ json_roundtrip Hput) as Hget.
    cbn [database.RelPath] in Hget.
    eexists; eexists (io.data downStream), _. split; [exact Hget |].
    split; [exact Hdisk |].
    cbn [database.setLastSyncTime database.FileSize database.ModTime fs.Size
           fs.ModTime].
    split; reflexivity.
Qed.

(** X25: after a successful Upload or Download of a path, a fresh
    local scan finds the file unchanged against the entry just written,
    provided the file's modification time fits [int64] nanoseconds
    (years 1678 to 2262): the local side will not be transferred again
    for its own sake. *)
Theorem transfer_then_local_unchanged (t : Task) (w w' : WorldL) :
  (Op t = OpUpload /\ local.isDirAt (RelPath t) (wLocal w) = false)
  \/ Op t = OpDownload ->
  processTask LocalFS RemoteFS json_Marshal aesBlock rand_Reader now e t w
    = (Ok tt, w') ->
  (forall c mt, local.disk (wLocal w') !! RelPath t = Some (local.File c mt) ->
     Int64.inRange mt) ->
  exists st m l,
    database.Get json_Unmarshal (RelPath t) (wDB w') = Ok (Some st)
    /\ local.ListAll (wLocal w') = Ok m
    /\ m !! RelPath t = Some l
    /\ isLocalSameAsBase l st = true.
Proof.
  intros Hop Hrun Hrange.
  destruct (transfer_entry t w w' Hop Hrun)
    as (st & c & mt & Hget & Hdisk & Hsize & Htime).
  destruct (ListAll_lookup (wLocal w')) as (m & Hlist & Hlook).
  exists st, m, (local.metaOf (RelPath t) (local.File c mt)).
  split; [exact Hget |]. split; [exact Hlist |].
  split; [rewrite Hlook, Hdisk; reflexivity |].
  apply recorded_local_is_same; cbn [local.metaOf fs.ModTime fs.Size fs.Hash].
  - exact (Hrange c mt Hdisk).
  - exact Hsize.
  - exact Htime.
  - right. reflexivity.
Qed.
End AfterTransfer.

(** ** Concrete runs of the further properties *)

Lemma isLocalSameAsBase_in_range_witness :
  isLocalSameAsBase sampleLocal sampleBase = false.
Proof.
  rewrite (isLocalSameAsBase_in_range sampleLocal sampleBase);
    vm_compute; reflexivity.
Defined.

Lemma failed_task_keeps_snapshot_witness :
  wDB (snd (processTask fixture.localFS fixture.readOnlyFS
              fixture.json_Marshal crypto.toyBlock fixture.randomBytes
              fixture.now (fixture.opts []) uploadTask readOnlyRemoteWorld))
  = wDB readOnlyRemoteWorld.
Proof.
  apply (failed_task_keeps_snapshot fixture.localFS fixture.readOnlyFS
           fixture.json_Marshal crypto.toyBlock fixture.randomBytes
           fixture.now (fixture.opts []) uploadTask readOnlyRemoteWorld
           _ fixture.EROFS).
  vm_compute. reflexivity.
Defined.

Lemma Run_quiescent_witness :
  runFixture [] None syncedWorld = (None, syncedWorld).
Proof.
  apply (Run_quiescent fixture.localFS fixture.localFS fixture.json_Marshal
           fixture.json_Unmarshal crypto.toyBlock fixture.randomBytes
           fixture.now (fixture.opts []) [] None syncedWorld
           {[ "a.txt"%string := local.metaOf "a.txt" (local.File [1; 2; 3] 5) ]}
           {[ "a.txt"%string := local.metaOf "a.txt" (local.File [1; 2; 3] 5) ]}
           {[ "a.txt"%string := syncedState ]}).
  - vm_compute. reflexivity.
  - intros p. destruct (decide (p = "a.txt"%string)) as [-> | Hne].
    + vm_compute. reflexivity.
    + rewrite !lookup_singleton_ne by congruence. reflexivity.
  - intros p. destruct (decide (p = "a.txt"%string)) as [-> | Hne].
    + intros _ _. eexists. apply lookup_singleton_eq.
    + intros [x Hx]. rewrite lookup_singleton_ne in Hx by congruence.
      discriminate Hx.
Defined.

Lemma Run_cancelled_witness :
  fst (runReadOnlyRemote [] (Some O) readOnlyRemoteWorld) = None
  /\ wLocal (snd (runReadOnlyRemote [] (Some O) readOnlyRemoteWorld))
     = wLocal readOnlyRemoteWorld
  /\ wRemote (snd (runReadOnlyRemote [] (Some O) readOnlyRemoteWorld))
     = wRemote readOnlyRemoteWorld.
Proof.
  apply (Run_cancelled fixture.localFS fixture.readOnlyFS fixture.json_Marshal
           fixture.json_Unmarshal crypto.toyBlock fixture.randomBytes
           fixture.now (fixture.opts []) [] readOnlyRemoteWorld
           {[ "a.txt"%string := local.metaOf "a.txt" (local.File [1; 2; 3] 5) ]}
           ∅ ∅).
  vm_compute. reflexivity.
Defined.

Lemma rebuild_then_ignore_witness :
  exists st,
    database.Get fixture.json_Unmarshal "a.txt"
      (wDB (snd (rebuildIndexPut fixture.json_Marshal fixture.now "a.txt"
                   (local.metaOf "a.txt" (local.File [1; 2; 3] 5))
                   (local.metaOf "a.txt" (local.File [9; 9; 9] 7))
                   fixture.freshUploadWorld)))
      = Ok (Some st)
    /\ compare (fixture.opts []) "a.txt"
         (Some (local.metaOf "a.txt" (local.File [1; 2; 3] 5)))
         (Some (local.metaOf "a.txt" (local.File [9; 9; 9] 7))) (Some st)
       = OpIgnore.
Proof.
  apply (rebuild_then_ignore fixture.json_Marshal fixture.json_Unmarshal
           fixture.now (fixture.opts []) "a.txt"
           (local.metaOf "a.txt" (local.File [1; 2; 3] 5))
           (local.metaOf "a.txt" (local.File [9; 9; 9] 7))
           fixture.freshUploadWorld).
  - exact fixture_json_roundtrip.
  - vm_compute. reflexivity.
  - vm_compute. reflexivity.
  - reflexivity.
  - vm_compute. split; discriminate.
Defined.

Lemma Put_Get_roundtrip_witness :
  database.Get fixture.json_Unmarshal "a.txt"
    (snd (database.Put fixture.json_Marshal fixture.now fixture.someState
            fixture.emptyDB))
  = Ok (Some {| database.RelPath := "a.txt"; database.FileSize := 3;
                database.ModTime := 5; database.LocalHash := "h13000";
                database.RemoteHash := "h13000"; database.IsDir := false;
                database.LastSyncTime := time.UnixNano fixture.now |})
  /\ forall k, k <> "a.txt"%string ->
       bbolt.bucket (snd (database.Put fixture.json_Marshal fixture.now
                            fixture.someState fixture.emptyDB)) !! k
       = bbolt.bucket fixture.emptyDB !! k.
Proof.
  apply (Put_Get_roundtrip fixture.json_Marshal fixture.json_Unmarshal
           fixture.now fixture.someState fixture.emptyDB).
  - exact fixture_json_roundtrip.
  - vm_compute. reflexivity.
Defined.

Lemma Delete_removes_entry_witness :
  database.Get fixture.json_Unmarshal "a.txt"
    (snd (database.Delete "a.txt" fixture.trackedDB)) = Ok None
  /\ (forall k, k <> "a.txt"%string ->
        bbolt.bucket (snd (database.Delete "a.txt" fixture.trackedDB)) !! k
        = bbolt.bucket fixture.trackedDB !! k)
  /\ database.Delete "a.txt" (snd (database.Delete "a.txt" fixture.trackedDB))
     = (None, snd (database.Delete "a.txt" fixture.trackedDB)).
Proof.
  apply (Delete_removes_entry fixture.json_Unmarshal "a.txt"
           fixture.trackedDB).
  vm_compute. reflexivity.
Defined.

Lemma Get_absent_or_damaged_witness :
  database.Get fixture.json_Unmarshal "a.txt" fixture.corruptDB = Ok None
  /\ database.Get fixture.json_Unmarshal "b.txt" fixture.corruptDB
     = Fail (ErrNew "unexpected end of JSON input").
Proof.
  split.
  - destruct (Get_absent_or_damaged fixture.json_Unmarshal "a.txt"
                fixture.corruptDB) as [Habsent _]; [reflexivity |].
    apply Habsent. reflexivity.
  - destruct (Get_absent_or_damaged fixture.json_Unmarshal "b.txt"
                fixture.corruptDB) as [_ Hdamaged]; [reflexivity |].
    apply (Hdamaged None); [reflexivity | reflexivity | discriminate].
Defined.

Lemma ListAll_agrees_with_Get_witness :
  database.Get fixture.json_Unmarshal "a.txt" fixture.trackedDB
  = Ok (({[ "a.txt"%string := fixture.someState ]}
           : gmap string database.FileState) !! "a.txt")
  /\ database.Get fixture.json_Unmarshal "b.txt" fixture.trackedDB
     = Ok (({[ "a.txt"%string := fixture.someState ]}
              : gmap string database.FileState) !! "b.txt").
Proof.
  split;
    apply (ListAll_agrees_with_Get fixture.json_Unmarshal fixture.trackedDB);
    vm_compute; reflexivity.
Defined.

Lemma WriteStream_roundtrip_witness :
  local.OpenStream "a.txt"
    (snd (local.WriteStream fixture.md5hex "a.txt"
            (io.bytesReader [1; 2; 3]) 7 fixture.emptyDisk))
  = Ok (io.bytesReader [1; 2; 3])
  /\ "h13000"%string = fixture.md5hex [1; 2; 3]
  /\ exists meta,
       local.Stat fixture.md5hex "a.txt"
         (snd (local.WriteStream fixture.md5hex "a.txt"
                 (io.bytesReader [1; 2; 3]) 7 fixture.emptyDisk))
       = Ok meta
       /\ fs.RelPath meta = "a.txt"%string
       /\ fs.Size meta = 3
       /\ fs.IsDir meta = false
       /\ fs.Hash meta = fixture.md5hex [1; 2; 3].
Proof.
  apply (WriteStream_roundtrip fixture.md5hex "a.txt"
           (io.bytesReader [1; 2; 3]) 7 fixture.emptyDisk).
  vm_compute. reflexivity.
Defined.


Lemma WriteStream_read_error_leaves_partial_witness :
  fst (local.WriteStream fixture.md5hex "a.txt" brokenStream 7
         fixture.emptyDisk)
  = Fail (ErrWrap "write failed" (ErrNew "connection reset"))
  /\ local.disk (snd (local.WriteStream fixture.md5hex "a.txt" brokenStream 7
                        fixture.emptyDisk)) !! "a.txt"
     = Some (local.File [1; 2] (local.clock fixture.emptyDisk)).
Proof.
  apply (WriteStream_read_error_leaves_partial fixture.md5hex "a.txt"
           brokenStream 7 fixture.emptyDisk ∅
           {[ "a.txt"%string := local.File [] (local.clock fixture.emptyDisk) ]});
    vm_compute; reflexivity.
Defined.


Lemma Rename_moves_file_witness :
  local.disk (snd (local.Rename "a.txt" "a.txt.local"
                     (fixture.disk1 "a.txt" [1; 2; 3] 5))) !! "a.txt.local"
  = Some (local.File [1; 2; 3] 5)
  /\ local.disk (snd (local.Rename "a.txt" "a.txt.local"
                        (fixture.disk1 "a.txt" [1; 2; 3] 5))) !! "a.txt"
     = None.
Proof.
  apply (Rename_moves_file "a.txt" "a.txt.local"
           (fixture.disk1 "a.txt" [1; 2; 3] 5)).
  - reflexivity.
  - discriminate.
  - vm_compute. reflexivity.
Defined.

Lemma transfer_then_local_unchanged_witness :
  exists st m l,
    database.Get fixture.json_Unmarshal "a.txt"
      (wDB (snd (taskFixture uploadTask fixture.freshUploadWorld)))
      = Ok (Some st)
    /\ local.ListAll (wLocal (snd (taskFixture uploadTask
                                     fixture.freshUploadWorld))) = Ok m
    /\ m !! "a.txt" = Some l
    /\ isLocalSameAsBase l st = true.
Proof.
  apply (transfer_then_local_unchanged fixture.md5hex fixture.localFS
           fixture.json_Marshal fixture.json_Unmarshal crypto.toyBlock
           fixture.randomBytes fixture.now (fixture.opts fixture.key32)
           fixture_json_roundtrip uploadTask fixture.freshUploadWorld).
  - left. split; reflexivity.
  - vm_compute. reflexivity.
  - intros c mt Hfile. vm_compute in Hfile. inversion Hfile; subst.
    vm_compute. split; discriminate.
Defined.
